(** * AutoMixEngine: a shallow embedding of [src/js/automixEngine.js]

    The JavaScript engine schedules a beat-aligned crossfade between two
    decoded tracks.  This development embeds its methods as Rocq
    functions and states the properties of the engine over them.

    Conventions of the embedding.

    - JavaScript numbers are idealised as real numbers ([R]): rounding of
      IEEE-754 doubles, [NaN], signed zeros and the narrowing to
      [Float32Array] elements are abstracted away.  [Math.cos], [Math.PI]
      and [Math.abs] are [cos], [PI] and [Rabs].
    - A value that may be [null]/[undefined] is an [option].
    - A method that may throw returns a [Completion]; the methods of the
      engine that read or write [this] run in the monad [M] over the
      state of the page ([World]).
    - The audio backend, the console, [anime] and [setTimeout] are
      recorded, call by call, in the [World].  A call on the playback
      backend is taken to return normally; the only backend operation
      that may fail is the offline render, whose outcome is given when a
      suspended call is resumed.
    - [audioContext.currentTime] is read from the [World]; it does not
      move within one task. *)

From Stdlib Require Import Reals Lra Lia List Bool Arith String.
Import ListNotations.

Open Scope R_scope.

(** ** Numeric tests *)

(** [a < b] and [a <= b] as the boolean tests of the source. *)
Definition Rltb (a b : R) : bool := if Rlt_dec a b then true else false.
Definition Rleb (a b : R) : bool := if Rle_dec a b then true else false.

(** ** CurveGenerator: [createSCurveFade] (lines 129-142) *)

Module Curve.

(** The body of the [for] loop at index [i]. *)
Definition sample (startValue endValue : R) (numPoints i : nat) : R :=
  let isFadeIn := Rltb startValue endValue in      (* endValue > startValue *)
  let x := INR i / (INR numPoints - 1) in
  let scaledX := if isFadeIn then x else 1 - x in
  let y := 0.5 * (1 - cos (scaledX * PI)) in
  startValue + (endValue - startValue) * y.

(** [createSCurveFade(startValue, endValue, numPoints)]: the array filled
    for [i = 0 .. numPoints - 1].  With [numPoints = 1] the source
    divides [0] by [0]; the real-number model is meant for every other
    length. *)
Definition createSCurveFade (startValue endValue : R) (numPoints : nat)
  : list R :=
  map (sample startValue endValue numPoints) (seq 0 numPoints).

End Curve.

(** JavaScript binds the declared parameters to the leading arguments of
    a call and drops the rest; [createSCurveFade] declares three
    parameters and never reads [arguments].  [createSCurveFade_call] is
    the call [this.createSCurveFade(startValue, endValue, numPoints,
    ...extra)] as written at lines 90-91, where [extra] is ['out'] or
    ['in']. *)
Inductive JsValue : Type :=
  | JsUndefined
  | JsBoolean (b : bool)
  | JsNumber (r : R)
  | JsString (s : string).

Definition createSCurveFade_call (startValue endValue : R) (numPoints : nat)
  (extra : list JsValue) : list R :=
  Curve.createSCurveFade startValue endValue numPoints.

Arguments Curve.createSCurveFade : simpl never.
Arguments createSCurveFade_call : simpl never.

(** Orderings of a gain curve, by index. *)
Definition non_decreasing (curve : list R) : Prop :=
  forall i j, (i <= j < List.length curve)%nat -> nth i curve 0 <= nth j curve 0.

Definition non_increasing (curve : list R) : Prop :=
  forall i j, (i <= j < List.length curve)%nat -> nth j curve 0 <= nth i curve 0.

(** ** Data model *)

Record AudioBuffer : Type := {
  duration : R;
  numberOfChannels : nat;
  sampleRate : R
}.

(** [analysis.beats] may be missing; an empty array is a present value. *)
Record Analysis : Type := {
  bpm : R;
  beats : option (list R)
}.

Record Track : Type := {
  buffer : AudioBuffer;
  analysis : option Analysis;
  fileName : string
}.

Inductive Error : Type :=
  | TypeError (msg : string)
  | DOMException (msg : string).

Inductive Completion (A : Type) : Type :=
  | Normal (a : A)
  | Throw (e : Error).
Arguments Normal {A} a.
Arguments Throw {A} e.

(** ** Array and operator helpers *)

(** [array.reduce(f)] with no initial value. *)
Definition reduce {A : Type} (f : A -> A -> A) (l : list A) : Completion A :=
  match l with
  | [] => Throw (TypeError "Reduce of empty array with no initial value"%string)
  | first :: rest => Normal (fold_left f rest first)
  end.

(** Truthiness of a number that may be [undefined]. *)
Definition truthy (v : option R) : bool :=
  match v with
  | Some r => if Req_dec_T r 0 then false else true
  | None => false
  end.

(** [a || b] on such values, and [a || 0]. *)
Definition js_or (a b : option R) : option R := if truthy a then a else b.

Definition js_or_num (a : option R) (b : R) : R :=
  match js_or a (Some b) with
  | Some r => r
  | None => b
  end.

(** [Math.ceil], from the integer part of the library. *)
Definition Rceil (r : R) : Z := (- Int_part (- r))%Z.

(** ** BeatAligner: the pure parts of [calculateBeatAlignedStartOffset] *)

(** The callback of the [reduce] at lines 157-159. *)
Definition closer (mixPoint prev curr : R) : R :=
  if Rltb (Rabs (curr - mixPoint)) (Rabs (prev - mixPoint)) then curr else prev.

Definition closestBeat (outgoingBeats : list R) (mixPoint : R) : Completion R :=
  reduce (closer mixPoint) outgoingBeats.

(** Line 162: [incomingBeats.find(beat => beat > 0.1) || incomingBeats[0] || 0]. *)
Definition firstIncoming (incomingBeats : list R) : R :=
  js_or_num
    (js_or (find (fun beat => Rltb 0.1 beat) incomingBeats)
           (hd_error incomingBeats))
    0.

(** ** The page: engine fields, collaborators and recorded calls *)

Definition NodeId := nat.

(** Calls on [this.audioContext], on the nodes it created, and on
    [anime]. *)
Inductive Call : Type :=
  | CreateBufferSource (node : NodeId)
  | CreateGain (node : NodeId)
  | SetBuffer (source : NodeId) (b : AudioBuffer)
  | Connect (source gain : NodeId)
  | ConnectDestination (gain : NodeId)
  | SetValueAtTime (gain : NodeId) (value time : R)
  | SetValueCurveAtTime (gain : NodeId) (curve : list R) (time dur : R)
  | SetTargetAtTime (gain : NodeId) (target time timeConstant : R)
  | Start (source : NodeId) (when offset : R)
  | Stop (source : NodeId) (when : R)
  | Anime (delay dur : R).

(** The arguments of [new OfflineAudioContext(...)] and the playback
    rate of its single source (lines 176-186). *)
Record OfflineRequest : Type := {
  req_source : AudioBuffer;
  req_channels : nat;
  req_length : Z;
  req_sampleRate : R;
  req_playbackRate : R
}.

Inductive LogMsg : Type :=
  | LogDebugMode (enabled : bool)
  | WarnAlreadyMixing
  | LogStarting
  | LogResampling (fromBpm toBpm : R)
  | WarnPast
  | LogScheduled (mixStartTime delta crossfadeDuration : R)
                 (trackA trackB : string) (startOffset : R)
  | WarnNoBeatData
  | LogAligning (closestBeatTime firstIncomingBeat : R)
  | LogOfflineRender (tempoRatio : R)
  | LogAnime (delay : R)
  | LogSimulation.

(** The fields of the engine that change after construction. *)
Record Engine : Type := {
  isMixing : bool;
  debugMode : bool;
  sourceNodeA : option NodeId;
  sourceNodeB : option NodeId;
  gainNodeA : option NodeId;
  gainNodeB : option NodeId
}.

(** Set once in the constructor (lines 20-21). *)
Definition FADE_TIME : R := 15 / 1000.
Definition CURVE_RESOLUTION : nat := 512.

Record World : Type := {
  engine : Engine;
  pm_crossfadeDuration : R;      (* playlistManager.getCrossfadeDuration() *)
  ctx_currentTime : R;           (* audioContext.currentTime *)
  animeDefined : bool;           (* typeof anime !== 'undefined' *)
  nextNode : NodeId;             (* identity of the next node created *)
  calls : list Call;             (* oldest first *)
  renders : list OfflineRequest; (* offline contexts built, oldest first *)
  console : list LogMsg;         (* oldest first *)
  timers : list R                (* delays (ms) of the pending flag-clearing timers *)
}.

(** The constructor (lines 11-22), in a given environment. *)
Definition newEngine : Engine :=
  {| isMixing := false; debugMode := false;
     sourceNodeA := None; sourceNodeB := None;
     gainNodeA := None; gainNodeB := None |}.

Definition newWorld (crossfade now : R) (anime : bool) : World :=
  {| engine := newEngine; pm_crossfadeDuration := crossfade;
     ctx_currentTime := now; animeDefined := anime; nextNode := 0%nat;
     calls := []; renders := []; console := []; timers := [] |}.

(** ** The monad of engine methods

    A method takes the page to a completion and a new page; a [Throw]
    keeps the writes made before it, as in JavaScript. *)

Definition M (A : Type) : Type := World -> Completion A * World.

Definition ret {A : Type} (a : A) : M A := fun w => (Normal a, w).

Definition throw {A : Type} (e : Error) : M A := fun w => (Throw e, w).

Definition bind {A B : Type} (m : M A) (k : A -> M B) : M B :=
  fun w =>
    match m w with
    | (Normal a, w') => k a w'
    | (Throw e, w') => (Throw e, w')
    end.

Declare Scope js_scope.
Delimit Scope js_scope with js.
Notation "x <- m ;; k" := (bind m (fun x => k))
  (at level 61, m at next level, right associativity) : js_scope.
Notation "m ;; k" := (bind m (fun _ => k))
  (at level 61, right associativity) : js_scope.
Open Scope js_scope.

Definition liftC {A : Type} (c : Completion A) : M A := fun w => (c, w).

Definition getEngine : M Engine := fun w => (Normal (engine w), w).

Definition updEngine (f : Engine -> Engine) : M unit :=
  fun w =>
    (Normal tt,
     {| engine := f (engine w);
        pm_crossfadeDuration := pm_crossfadeDuration w;
        ctx_currentTime := ctx_currentTime w;
        animeDefined := animeDefined w; nextNode := nextNode w;
        calls := calls w; renders := renders w; console := console w;
        timers := timers w |}).

Definition set_isMixing (b : bool) (e : Engine) : Engine :=
  {| isMixing := b; debugMode := debugMode e;
     sourceNodeA := sourceNodeA e; sourceNodeB := sourceNodeB e;
     gainNodeA := gainNodeA e; gainNodeB := gainNodeB e |}.

Definition set_debugMode (b : bool) (e : Engine) : Engine :=
  {| isMixing := isMixing e; debugMode := b;
     sourceNodeA := sourceNodeA e; sourceNodeB := sourceNodeB e;
     gainNodeA := gainNodeA e; gainNodeB := gainNodeB e |}.

Definition set_sourceNodeA (n : NodeId) (e : Engine) : Engine :=
  {| isMixing := isMixing e; debugMode := debugMode e;
     sourceNodeA := Some n; sourceNodeB := sourceNodeB e;
     gainNodeA := gainNodeA e; gainNodeB := gainNodeB e |}.

Definition set_sourceNodeB (n : NodeId) (e : Engine) : Engine :=
  {| isMixing := isMixing e; debugMode := debugMode e;
     sourceNodeA := sourceNodeA e; sourceNodeB := Some n;
     gainNodeA := gainNodeA e; gainNodeB := gainNodeB e |}.

Definition set_gainNodeA (n : NodeId) (e : Engine) : Engine :=
  {| isMixing := isMixing e; debugMode := debugMode e;
     sourceNodeA := sourceNodeA e; sourceNodeB := sourceNodeB e;
     gainNodeA := Some n; gainNodeB := gainNodeB e |}.

Definition set_gainNodeB (n : NodeId) (e : Engine) : Engine :=
  {| isMixing := isMixing e; debugMode := debugMode e;
     sourceNodeA := sourceNodeA e; sourceNodeB := sourceNodeB e;
     gainNodeA := gainNodeA e; gainNodeB := Some n |}.

(** [console.log]/[console.warn], unconditionally. *)
Definition consoleLog (msg : LogMsg) : M unit :=
  fun w =>
    (Normal tt,
     {| engine := engine w;
        pm_crossfadeDuration := pm_crossfadeDuration w;
        ctx_currentTime := ctx_currentTime w;
        animeDefined := animeDefined w; nextNode := nextNode w;
        calls := calls w; renders := renders w;
        console := console w ++ [msg]; timers := timers w |}).

(** [if (this.debugMode) console.log(msg)]. *)
Definition debugLog (msg : LogMsg) : M unit :=
  e <- getEngine ;;
  if debugMode e then consoleLog msg else ret tt.

Definition getCrossfadeDuration : M R :=
  fun w => (Normal (pm_crossfadeDuration w), w).

Definition currentTime : M R := fun w => (Normal (ctx_currentTime w), w).

Definition typeofAnimeDefined : M bool := fun w => (Normal (animeDefined w), w).

Definition record (c : Call) : M unit :=
  fun w =>
    (Normal tt,
     {| engine := engine w;
        pm_crossfadeDuration := pm_crossfadeDuration w;
        ctx_currentTime := ctx_currentTime w;
        animeDefined := animeDefined w; nextNode := nextNode w;
        calls := calls w ++ [c]; renders := renders w; console := console w;
        timers := timers w |}).

Definition freshNode : M NodeId :=
  fun w =>
    (Normal (nextNode w),
     {| engine := engine w;
        pm_crossfadeDuration := pm_crossfadeDuration w;
        ctx_currentTime := ctx_currentTime w;
        animeDefined := animeDefined w; nextNode := S (nextNode w);
        calls := calls w; renders := renders w; console := console w;
        timers := timers w |}).

(** [this.audioContext.createBufferSource()] and [createGain()]. *)
Definition createBufferSource : M NodeId :=
  n <- freshNode ;; record (CreateBufferSource n) ;; ret n.

Definition createGain : M NodeId :=
  n <- freshNode ;; record (CreateGain n) ;; ret n.

(** [new OfflineAudioContext(...)] with its source wired and started. *)
Definition offlineContext (req : OfflineRequest) : M unit :=
  fun w =>
    (Normal tt,
     {| engine := engine w;
        pm_crossfadeDuration := pm_crossfadeDuration w;
        ctx_currentTime := ctx_currentTime w;
        animeDefined := animeDefined w; nextNode := nextNode w;
        calls := calls w; renders := renders w ++ [req]; console := console w;
        timers := timers w |}).

(** [setTimeout(() => { this.isMixing = false; }, delay)]. *)
Definition setTimeout_clearIsMixing (delay : R) : M unit :=
  fun w =>
    (Normal tt,
     {| engine := engine w;
        pm_crossfadeDuration := pm_crossfadeDuration w;
        ctx_currentTime := ctx_currentTime w;
        animeDefined := animeDefined w; nextNode := nextNode w;
        calls := calls w; renders := renders w; console := console w;
        timers := timers w ++ [delay] |}).

(** The object behind a reference that may be [null], for a property
    read such as [analysisA.bpm]. *)
Definition deref (a : option Analysis) : M Analysis :=
  match a with
  | Some an => ret an
  | None => throw (TypeError "Cannot read properties of undefined"%string)
  end.

(** ** Engine methods *)

(** [setDebugMode(enabled)] (lines 28-31). *)
Definition setDebugMode (enabled : bool) : M unit :=
  updEngine (set_debugMode enabled) ;;
  consoleLog (LogDebugMode enabled).

(** [calculateBeatAlignedStartOffset(analysisA, analysisB, mixPoint)]
    (lines 147-167).  The guard tests the references, not the length of
    the arrays: an empty array is truthy. *)
Definition calculateBeatAlignedStartOffset
  (analysisA analysisB : option Analysis) (mixPoint : R) : M R :=
  match analysisA, analysisB with
  | Some a, Some b =>
      match beats a, beats b with
      | Some outgoingBeats, Some incomingBeats =>
          closestBeatTime <- liftC (closestBeat outgoingBeats mixPoint) ;;
          let firstIncomingBeat := firstIncoming incomingBeats in
          debugLog (LogAligning closestBeatTime firstIncomingBeat) ;;
          ret firstIncomingBeat
      | _, _ => debugLog WarnNoBeatData ;; ret 0
      end
  | _, _ => debugLog WarnNoBeatData ;; ret 0
  end.

(** [resampleBufferForTempo(sourceBuffer, analysisA, analysisB)]
    (lines 172-191), up to the promise it returns: the offline context
    is built and its rendering requested.  How the promise settles is
    decided by the backend, when the caller is resumed; a failure of the
    constructor rejects the same promise and is folded into it. *)
Definition resampleBufferForTempo
  (sourceBuffer : AudioBuffer) (analysisA analysisB : Analysis)
  : M OfflineRequest :=
  let tempoRatio := bpm analysisA / bpm analysisB in
  let newDuration := duration sourceBuffer / tempoRatio in
  let req :=
    {| req_source := sourceBuffer;
       req_channels := numberOfChannels sourceBuffer;
       req_length := Rceil (newDuration * sampleRate sourceBuffer);
       req_sampleRate := sampleRate sourceBuffer;
       req_playbackRate := tempoRatio |} in
  offlineContext req ;;
  debugLog (LogOfflineRender tempoRatio) ;;
  ret req.

(** [syncCrossfadeAnimation(startTime, duration)] (lines 196-215). *)
Definition syncCrossfadeAnimation (startTime dur : R) : M unit :=
  defined <- typeofAnimeDefined ;;
  if defined then
    now <- currentTime ;;
    let delay := (startTime - now) * 1000 in
    debugLog (LogAnime delay) ;;
    record (Anime (if Rltb 0 delay then delay else 0) (dur * 1000))
  else ret tt.

(** *** [startAutoMix] (lines 39-123)

    The method is [async] and has one [await], at line 61.  It is
    embedded in two parts that share the code after the [await]:
    [startAutoMix_enter] runs from the call to the first of the [await]
    and the end of the method, [startAutoMix_resume] runs from the
    settlement of the awaited promise to the end. *)

(** The locals that are live across the [await]. *)
Record Frame : Type := {
  fr_currentTrack : Track;
  fr_nextTrack : Track;
  fr_currentPosition : R;
  fr_crossfadeDuration : R;
  fr_mixPoint : R;
  fr_request : OfflineRequest
}.

Inductive Enter : Type :=
  | Done (result : bool)
  | Await (f : Frame).

(** Lines 64-122, with [bufferB] as left by step 2. *)
Definition startAutoMix_schedule
  (currentTrack nextTrack : Track)
  (currentPosition crossfadeDuration mixPoint : R)
  (bufferB : AudioBuffer) : M bool :=
  let bufferA := buffer currentTrack in
  let analysisA := analysis currentTrack in
  let analysisB := analysis nextTrack in
  (* 3. Beat alignment *)
  startTimeB <- calculateBeatAlignedStartOffset analysisA analysisB mixPoint ;;
  (* 4. Scheduling *)
  now <- currentTime ;;
  let mixStartTime := now + (mixPoint - currentPosition) in
  if Rleb mixStartTime now then
    debugLog WarnPast ;;
    updEngine (set_isMixing false) ;;
    ret false
  else
    (* 5. Create and configure audio nodes *)
    srcA <- createBufferSource ;; updEngine (set_sourceNodeA srcA) ;;
    srcB <- createBufferSource ;; updEngine (set_sourceNodeB srcB) ;;
    gA <- createGain ;; updEngine (set_gainNodeA gA) ;;
    gB <- createGain ;; updEngine (set_gainNodeB gB) ;;
    record (SetBuffer srcA bufferA) ;;
    record (SetBuffer srcB bufferB) ;;
    record (Connect srcA gA) ;; record (ConnectDestination gA) ;;
    record (Connect srcB gB) ;; record (ConnectDestination gB) ;;
    (* 6. Schedule crossfade using S-curves *)
    let fadeOutCurve :=
      createSCurveFade_call 1 0.0001 CURVE_RESOLUTION [JsString "out"%string] in
    let fadeInCurve :=
      createSCurveFade_call 0.0001 1 CURVE_RESOLUTION [JsString "in"%string] in
    record (SetValueAtTime gA 1.0 mixStartTime) ;;
    record (SetValueCurveAtTime gA fadeOutCurve mixStartTime crossfadeDuration) ;;
    record (SetValueAtTime gB 0.0001 mixStartTime) ;;
    record (SetValueCurveAtTime gB fadeInCurve mixStartTime crossfadeDuration) ;;
    (* 7. Schedule playback and micro-fades *)
    record (Start srcB mixStartTime startTimeB) ;;
    record (SetTargetAtTime gB 1.0 mixStartTime FADE_TIME) ;;
    record (SetTargetAtTime gA 0
              (mixStartTime + crossfadeDuration - FADE_TIME) FADE_TIME) ;;
    record (Stop srcA (mixStartTime + crossfadeDuration)) ;;
    (* 8. Synchronize animation *)
    syncCrossfadeAnimation mixStartTime crossfadeDuration ;;
    debugLog (LogScheduled mixStartTime (mixStartTime - now) crossfadeDuration
                (fileName currentTrack) (fileName nextTrack) startTimeB) ;;
    setTimeout_clearIsMixing ((mixStartTime - now + crossfadeDuration) * 1000) ;;
    ret true.

(** Lines 40-62, then the rest of the method when line 61 is skipped. *)
Definition startAutoMix_enter
  (currentTrack nextTrack : Track) (currentPosition : R) : M Enter :=
  e <- getEngine ;;
  if isMixing e then
    debugLog WarnAlreadyMixing ;;
    ret (Done false)
  else
    updEngine (set_isMixing true) ;;
    debugLog LogStarting ;;
    crossfadeDuration <- getCrossfadeDuration ;;
    let mixPoint := duration (buffer currentTrack) - crossfadeDuration in
    (* 1. Get audio buffers and analysis data *)
    let bufferB := buffer nextTrack in
    let analysisA := analysis currentTrack in
    let analysisB := analysis nextTrack in
    (* 2. Tempo Resampling if needed *)
    a <- deref analysisA ;;
    b <- deref analysisB ;;
    let bpmDifference := Rabs (bpm a - bpm b) in
    if Rltb (bpm a * 0.03) bpmDifference && Rltb bpmDifference (bpm a * 0.25)
    then
      debugLog (LogResampling (bpm b) (bpm a)) ;;
      req <- resampleBufferForTempo bufferB a b ;;
      ret (Await {| fr_currentTrack := currentTrack;
                    fr_nextTrack := nextTrack;
                    fr_currentPosition := currentPosition;
                    fr_crossfadeDuration := crossfadeDuration;
                    fr_mixPoint := mixPoint;
                    fr_request := req |})
    else
      result <- startAutoMix_schedule currentTrack nextTrack currentPosition
                  crossfadeDuration mixPoint bufferB ;;
      ret (Done result).

(** Resumption at line 61: the awaited promise rejected, or resolved
    with the rendered buffer. *)
Definition startAutoMix_resume (f : Frame) (settled : Completion AudioBuffer)
  : M bool :=
  bufferB <- liftC settled ;;
  startAutoMix_schedule (fr_currentTrack f) (fr_nextTrack f)
    (fr_currentPosition f) (fr_crossfadeDuration f) (fr_mixPoint f) bufferB.

(** A call that is resumed with nothing else run in between; [render]
    is the behaviour of the offline backend. *)
Definition startAutoMix (render : OfflineRequest -> Completion AudioBuffer)
  (currentTrack nextTrack : Track) (currentPosition : R) : M bool :=
  entered <- startAutoMix_enter currentTrack nextTrack currentPosition ;;
  match entered with
  | Done result => ret result
  | Await f => startAutoMix_resume f (render (fr_request f))
  end.

(** *** [simulateMixSession] (lines 220-266) *)

Record Report : Type := {
  rep_mixPoint : R;
  rep_crossfadeDuration : R;
  trackA_BPM : R;
  trackB_BPM : R;
  resamplingNeeded : bool;
  resampledBPM : option R;
  outgoingBeat : option R;
  incomingBeat : option R;
  finalOffset : option R
}.

Inductive Simulation : Type :=
  | SimError (msg : string)
  | SimReport (r : Report).

Definition simulateMixSession (currentTrack nextTrack : option Track)
  : M Simulation :=
  match currentTrack, nextTrack with
  | Some cur, Some next =>
      match analysis cur, analysis next with
      | Some analysisA, Some analysisB0 =>
          crossfadeDuration <- getCrossfadeDuration ;;
          let mixPoint := duration (buffer cur) - crossfadeDuration in
          let bpmDifference := Rabs (bpm analysisA - bpm analysisB0) in
          let needed :=
            Rltb (bpm analysisA * 0.03) bpmDifference
            && Rltb bpmDifference (bpm analysisA * 0.25) in
          (* { ...analysisB, bpm: analysisA.bpm } *)
          let analysisB :=
            if needed
            then {| bpm := bpm analysisA; beats := beats analysisB0 |}
            else analysisB0 in
          offset <- calculateBeatAlignedStartOffset
                      (Some analysisA) (Some analysisB) mixPoint ;;
          outgoing <-
            match beats analysisA with
            | Some bs => c <- liftC (reduce (closer mixPoint) bs) ;; ret (Some c)
            | None => ret None
            end ;;
          let incoming :=
            match beats analysisB with
            | Some bs => js_or (find (fun b => Rltb 0.1 b) bs) (hd_error bs)
            | None => None
            end in
          debugLog LogSimulation ;;
          ret (SimReport
                 {| rep_mixPoint := mixPoint;
                    rep_crossfadeDuration := crossfadeDuration;
                    trackA_BPM := bpm analysisA;
                    trackB_BPM := bpm analysisB0;
                    resamplingNeeded := needed;
                    resampledBPM := if needed then Some (bpm analysisA) else None;
                    outgoingBeat := outgoing;
                    incomingBeat := incoming;
                    finalOffset := Some offset |})
      | _, _ => ret (SimError "Missing track data or analysis."%string)
      end
  | _, _ => ret (SimError "Missing track data or analysis."%string)
  end.

(** ** The engine in its event loop

    The page runs one task at a time.  A task is a call of a public
    method, the resumption of a suspended [startAutoMix], the firing of
    a pending timer, or a change of the environment the engine reads
    (the playback clock, the configured crossfade duration). *)

Record Page : Type := {
  world : World;
  suspended : list Frame    (* calls of startAutoMix parked at the await *)
}.

(** What a task shows to its caller. *)
Inductive Outcome : Type :=
  | Returned (result : bool)     (* startAutoMix resolved with [result] *)
  | Rejected (e : Error)         (* startAutoMix rejected with [e] *)
  | Pending                      (* startAutoMix is awaiting the render *)
  | Quiet.                       (* any other task *)

(** The timer callback [() => { this.isMixing = false; }]. *)
Definition fireTimer (rest : list R) (w : World) : World :=
  {| engine := set_isMixing false (engine w);
     pm_crossfadeDuration := pm_crossfadeDuration w;
     ctx_currentTime := ctx_currentTime w;
     animeDefined := animeDefined w; nextNode := nextNode w;
     calls := calls w; renders := renders w; console := console w;
     timers := rest |}.

Definition setEnvironment (crossfade now : R) (w : World) : World :=
  {| engine := engine w;
     pm_crossfadeDuration := crossfade;
     ctx_currentTime := now;
     animeDefined := animeDefined w; nextNode := nextNode w;
     calls := calls w; renders := renders w; console := console w;
     timers := timers w |}.

Inductive step : Page -> Outcome -> Page -> Prop :=
  | step_call_done : forall p cur next pos result w',
      startAutoMix_enter cur next pos (world p) = (Normal (Done result), w') ->
      step p (Returned result) {| world := w'; suspended := suspended p |}
  | step_call_await : forall p cur next pos f w',
      startAutoMix_enter cur next pos (world p) = (Normal (Await f), w') ->
      step p Pending {| world := w'; suspended := suspended p ++ [f] |}
  | step_call_throw : forall p cur next pos e w',
      startAutoMix_enter cur next pos (world p) = (Throw e, w') ->
      step p (Rejected e) {| world := w'; suspended := suspended p |}
  | step_resume_done : forall p before f after settled result w',
      suspended p = before ++ f :: after ->
      startAutoMix_resume f settled (world p) = (Normal result, w') ->
      step p (Returned result) {| world := w'; suspended := before ++ after |}
  | step_resume_throw : forall p before f after settled e w',
      suspended p = before ++ f :: after ->
      startAutoMix_resume f settled (world p) = (Throw e, w') ->
      step p (Rejected e) {| world := w'; suspended := before ++ after |}
  | step_timer : forall p before delay after,
      timers (world p) = before ++ delay :: after ->
      step p Quiet {| world := fireTimer (before ++ after) (world p);
                      suspended := suspended p |}
  | step_setDebugMode : forall p enabled w',
      setDebugMode enabled (world p) = (Normal tt, w') ->
      step p Quiet {| world := w'; suspended := suspended p |}
  | step_simulate : forall p cur next c w',
      simulateMixSession cur next (world p) = (c, w') ->
      step p Quiet {| world := w'; suspended := suspended p |}
  | step_environment : forall p crossfade now,
      ctx_currentTime (world p) <= now ->
      step p Quiet {| world := setEnvironment crossfade now (world p);
                      suspended := suspended p |}.

(** Pages reached from [p] by running tasks. *)
Inductive reaches (p : Page) : Page -> Prop :=
  | reaches_refl : reaches p p
  | reaches_step : forall q o r, reaches p q -> step q o r -> reaches p r.

(** A page right after [new AutoMixEngine(audioContext, playlistManager)]. *)
Definition newPage (crossfade now : R) (anime : bool) : Page :=
  {| world := newWorld crossfade now anime; suspended := [] |}.

(** Sessions in flight: parked calls and armed sessions whose timer has
    not fired yet. *)
Definition sessions (p : Page) : nat :=
  (List.length (suspended p) + List.length (timers (world p)))%nat.

(** ** Specification predicates

    The properties below compare the code with these readings of the
    specification. *)

(** The tempo window of the specification: a difference above 3 % and
    below 25 % of the outgoing tempo. *)
Definition isResamplingNeeded_spec (bpmA bpmB : R) : Prop :=
  0.03 * bpmA < Rabs (bpmA - bpmB) /\ Rabs (bpmA - bpmB) < 0.25 * bpmA.

(** [anchor] is the element of [beatGrid] nearest to [mixPoint], the
    first one in iteration order among equally near ones. *)
Definition nearest_first (mixPoint : R) (beatGrid : list R) (anchor : R) : Prop :=
  exists before after,
    beatGrid = before ++ anchor :: after
    /\ (forall b, In b before -> Rabs (anchor - mixPoint) < Rabs (b - mixPoint))
    /\ (forall b, In b after -> Rabs (anchor - mixPoint) <= Rabs (b - mixPoint)).

(** [offset] is the first element of [incomingBeats] strictly above 0.1,
    or the first element when none is above 0.1. *)
Definition first_usable (incomingBeats : list R) (offset : R) : Prop :=
  (exists before after,
      incomingBeats = before ++ offset :: after
      /\ 0.1 < offset
      /\ (forall b, In b before -> b <= 0.1))
  \/ ((forall b, In b incomingBeats -> b <= 0.1)
      /\ hd_error incomingBeats = Some offset).

(** Two pages that differ at most in what was written to the console. *)
Definition quiet (w w' : World) : Prop :=
  engine w' = engine w
  /\ pm_crossfadeDuration w' = pm_crossfadeDuration w
  /\ ctx_currentTime w' = ctx_currentTime w
  /\ animeDefined w' = animeDefined w
  /\ nextNode w' = nextNode w
  /\ calls w' = calls w
  /\ renders w' = renders w
  /\ timers w' = timers w.

(** The calls of a session that gets armed, for nodes numbered from [n]:
    two sources and two gains, wired to the destination, the two gain
    curves, the start of the incoming source at [offset], the two
    micro-fades and the stop of the outgoing source. *)
Definition armedCalls (n : NodeId) (bufferA bufferB : AudioBuffer)
  (mixStartTime crossfade offset : R) : list Call :=
  [ CreateBufferSource n; CreateBufferSource (S n);
    CreateGain (S (S n)); CreateGain (S (S (S n)));
    SetBuffer n bufferA; SetBuffer (S n) bufferB;
    Connect n (S (S n)); ConnectDestination (S (S n));
    Connect (S n) (S (S (S n))); ConnectDestination (S (S (S n)));
    SetValueAtTime (S (S n)) 1.0 mixStartTime;
    SetValueCurveAtTime (S (S n))
      (createSCurveFade_call 1 0.0001 CURVE_RESOLUTION [JsString "out"])
      mixStartTime crossfade;
    SetValueAtTime (S (S (S n))) 0.0001 mixStartTime;
    SetValueCurveAtTime (S (S (S n)))
      (createSCurveFade_call 0.0001 1 CURVE_RESOLUTION [JsString "in"])
      mixStartTime crossfade;
    Start (S n) mixStartTime offset;
    SetTargetAtTime (S (S (S n))) 1.0 mixStartTime FADE_TIME;
    SetTargetAtTime (S (S n)) 0 (mixStartTime + crossfade - FADE_TIME) FADE_TIME;
    Stop n (mixStartTime + crossfade) ].

(** The page once line 46 has run: the flag is set and, in debug mode,
    the start of the mix is logged. *)
Definition armed (w : World) : World :=
  snd ((updEngine (set_isMixing true) ;; debugLog LogStarting) w).

(** The test of lines 59 and 250 on two analyses. *)
Definition tempoTest (a b : Analysis) : bool :=
  Rltb (bpm a * 0.03) (Rabs (bpm a - bpm b))
  && Rltb (Rabs (bpm a - bpm b)) (bpm a * 0.25).

(** The request built at lines 173-186 for [sourceBuffer]. *)
Definition requestFor (sourceBuffer : AudioBuffer) (a b : Analysis)
  : OfflineRequest :=
  {| req_source := sourceBuffer;
     req_channels := numberOfChannels sourceBuffer;
     req_length :=
       Rceil (duration sourceBuffer / (bpm a / bpm b) * sampleRate sourceBuffer);
     req_sampleRate := sampleRate sourceBuffer;
     req_playbackRate := bpm a / bpm b |}.

(** A page is consistent when an idle engine has no session in flight
    and a busy one has at most one. *)
Definition consistent (p : Page) : Prop :=
  (isMixing (engine (world p)) = false -> sessions p = 0%nat)
  /\ (sessions p <= 1)%nat.

(** A page is stuck when the flag is set and no session is in flight. *)
Definition stuck (p : Page) : Prop :=
  isMixing (engine (world p)) = true /\ sessions p = 0%nat.

(** The source nodes that the recorded calls start, and those they
    stop, in order. *)
Fixpoint startedSources (cs : list Call) : list NodeId :=
  match cs with
  | [] => []
  | Start source _ _ :: rest => source :: startedSources rest
  | _ :: rest => startedSources rest
  end.

Fixpoint stoppedSources (cs : list Call) : list NodeId :=
  match cs with
  | [] => []
  | Stop source _ :: rest => source :: stoppedSources rest
  | _ :: rest => stoppedSources rest
  end.

(** Two pages that differ at most in the debug flag and in what was
    written to the console. *)
Definition same_but_debug (w1 w2 : World) : Prop :=
  isMixing (engine w1) = isMixing (engine w2)
  /\ sourceNodeA (engine w1) = sourceNodeA (engine w2)
  /\ sourceNodeB (engine w1) = sourceNodeB (engine w2)
  /\ gainNodeA (engine w1) = gainNodeA (engine w2)
  /\ gainNodeB (engine w1) = gainNodeB (engine w2)
  /\ pm_crossfadeDuration w1 = pm_crossfadeDuration w2
  /\ ctx_currentTime w1 = ctx_currentTime w2
  /\ animeDefined w1 = animeDefined w2
  /\ nextNode w1 = nextNode w2
  /\ calls w1 = calls w2
  /\ renders w1 = renders w2
  /\ timers w1 = timers w2.

(** From [w] to [w'] the backend calls of one armed session were
    recorded, for four new nodes, followed at most by [anime] calls. *)
Definition armed_block (w w' : World) : Prop :=
  exists bufferA bufferB mixStartTime crossfade offset tail,
    calls w'
    = calls w
      ++ armedCalls (nextNode w) bufferA bufferB mixStartTime crossfade offset
      ++ tail
    /\ (forall c, In c tail -> exists delay dur, c = Anime delay dur)
    /\ nextNode w' = S (S (S (S (nextNode w)))).

(** From [w] to [w'] no backend call was recorded and no node created. *)
Definition backend_untouched (w w' : World) : Prop :=
  calls w' = calls w /\ nextNode w' = nextNode w.

(** No source node is started twice, every started source was created
    by an earlier [createBufferSource], and no source is both started
    and stopped. *)
Definition sources_used_once (w : World) : Prop :=
  NoDup (startedSources (calls w))
  /\ (forall s, In s (startedSources (calls w)) ->
        (s < nextNode w)%nat /\ In (CreateBufferSource s) (calls w))
  /\ (forall s, In s (stoppedSources (calls w)) -> (s < nextNode w)%nat)
  /\ (forall s, In s (startedSources (calls w)) ->
        In s (stoppedSources (calls w)) -> False).


(** ** Example data *)

Definition exampleBuffer : AudioBuffer :=
  {| duration := 200; numberOfChannels := 2; sampleRate := 44100 |}.

Definition exampleTrack (tempo : R) (beatGrid : option (list R)) : Track :=
  {| buffer := exampleBuffer;
     analysis := Some {| bpm := tempo; beats := beatGrid |};
     fileName := "track.mp3" |}.

(** An offline backend whose render always rejects. *)
Definition failingRender (req : OfflineRequest) : Completion AudioBuffer :=
  Throw (DOMException "rendering failed").

(** An offline backend that hands the source back with its new length. *)
Definition workingRender (req : OfflineRequest) : Completion AudioBuffer :=
  Normal {| duration := IZR (req_length req) / req_sampleRate req;
            numberOfChannels := req_channels req;
            sampleRate := req_sampleRate req |}.

(** An engine in the middle of a session. *)
Definition busyWorld : World :=
  {| engine := set_isMixing true newEngine; pm_crossfadeDuration := 8;
     ctx_currentTime := 0; animeDefined := false; nextNode := 4%nat;
     calls := []; renders := []; console := []; timers := [3000] |}.

(** A new engine after [setDebugMode(true)]. *)
Definition debugWorld : World := snd (setDebugMode true (newWorld 8 0 true)).

(** * Properties *)

(** ** Numeric tests *)

Lemma Rltb_true (a b : R) : a < b -> Rltb a b = true.
Proof. intros H; unfold Rltb; destruct (Rlt_dec a b); [reflexivity | contradiction]. Qed.

Lemma Rltb_false (a b : R) : b <= a -> Rltb a b = false.
Proof. intros H; unfold Rltb; destruct (Rlt_dec a b); [lra | reflexivity]. Qed.

Lemma Rltb_iff (a b : R) : Rltb a b = true <-> a < b.
Proof. unfold Rltb; destruct (Rlt_dec a b); split; intros; (assumption || reflexivity || discriminate || contradiction). Qed.

Lemma Rleb_true (a b : R) : a <= b -> Rleb a b = true.
Proof. intros H; unfold Rleb; destruct (Rle_dec a b); [reflexivity | contradiction]. Qed.

Lemma Rleb_false (a b : R) : b < a -> Rleb a b = false.
Proof. intros H; unfold Rleb; destruct (Rle_dec a b); [lra | reflexivity]. Qed.

(** ** CurveGenerator *)

Section CurveFacts.

Variables startValue endValue : R.
Variable numPoints : nat.
Hypothesis two_points : (2 <= numPoints)%nat.

Lemma denominator_pos : 0 < INR numPoints - 1.
Proof.
  assert (H : INR 2 <= INR numPoints) by (apply le_INR; exact two_points).
  simpl in H; lra.
Qed.

Lemma length_createSCurveFade :
  List.length (Curve.createSCurveFade startValue endValue numPoints) = numPoints.
Proof. unfold Curve.createSCurveFade; now rewrite length_map, length_seq. Qed.

Lemma nth_createSCurveFade (i : nat) :
  (i < numPoints)%nat ->
  nth i (Curve.createSCurveFade startValue endValue numPoints) 0
  = Curve.sample startValue endValue numPoints i.
Proof.
  intros Hi; unfold Curve.createSCurveFade.
  rewrite (nth_indep _ 0 (Curve.sample startValue endValue numPoints 0%nat))
    by now rewrite length_map, length_seq.
  rewrite map_nth, seq_nth by exact Hi.
  reflexivity.
Qed.

(** The abscissa [x] of sample [i] runs over [0, 1]. *)
Lemma abscissa_first : INR 0 / (INR numPoints - 1) = 0.
Proof. simpl; unfold Rdiv; apply Rmult_0_l. Qed.

Lemma abscissa_last : INR (numPoints - 1) / (INR numPoints - 1) = 1.
Proof.
  rewrite minus_INR by lia; simpl.
  apply Rdiv_diag; pose proof denominator_pos; lra.
Qed.

Lemma abscissa_range (i : nat) :
  (i < numPoints)%nat -> 0 <= INR i / (INR numPoints - 1) <= 1.
Proof.
  intros Hi; pose proof denominator_pos as Hd.
  assert (H0 : 0 <= INR i) by apply pos_INR.
  assert (H1 : INR i <= INR (numPoints - 1)) by (apply le_INR; lia).
  rewrite minus_INR in H1 by lia; simpl in H1.
  split.
  - apply Rmult_le_pos; [exact H0 | left; now apply Rinv_0_lt_compat].
  - apply Rmult_le_reg_r with (INR numPoints - 1); [exact Hd |].
    unfold Rdiv; rewrite Rmult_assoc, Rinv_l by lra; lra.
Qed.

Lemma abscissa_mono (i j : nat) :
  (i <= j)%nat -> INR i / (INR numPoints - 1) <= INR j / (INR numPoints - 1).
Proof.
  intros Hij; pose proof denominator_pos as Hd.
  apply Rmult_le_compat_r; [left; now apply Rinv_0_lt_compat | now apply le_INR].
Qed.

(** What the loop stores at both ends, in each of its two branches. *)
Lemma sample_first_rising :
  startValue < endValue ->
  Curve.sample startValue endValue numPoints 0 = startValue.
Proof.
  intros H; unfold Curve.sample.
  rewrite (Rltb_true _ _ H), abscissa_first, Rmult_0_l, cos_0; lra.
Qed.

Lemma sample_last_rising :
  startValue < endValue ->
  Curve.sample startValue endValue numPoints (numPoints - 1) = endValue.
Proof.
  intros H; unfold Curve.sample.
  rewrite (Rltb_true _ _ H), abscissa_last, Rmult_1_l, cos_PI; lra.
Qed.

Lemma sample_first_falling :
  endValue <= startValue ->
  Curve.sample startValue endValue numPoints 0 = endValue.
Proof.
  intros H; unfold Curve.sample.
  rewrite (Rltb_false _ _ H), abscissa_first.
  replace ((1 - 0) * PI) with PI by lra.
  rewrite cos_PI; lra.
Qed.

Lemma sample_last_falling :
  endValue <= startValue ->
  Curve.sample startValue endValue numPoints (numPoints - 1) = startValue.
Proof.
  intros H; unfold Curve.sample.
  rewrite (Rltb_false _ _ H), abscissa_last.
  replace ((1 - 1) * PI) with 0 by lra.
  rewrite cos_0; lra.
Qed.

(** Whatever the order of the two bounds, the samples never go down:
    the reversal [1 - x] of the falling branch undoes the negative sign
    of [endValue - startValue]. *)
Lemma sample_mono (i j : nat) :
  (i <= j < numPoints)%nat ->
  Curve.sample startValue endValue numPoints i
  <= Curve.sample startValue endValue numPoints j.
Proof.
  intros [Hij Hj].
  assert (Hi : (i < numPoints)%nat) by lia.
  pose proof (abscissa_range i Hi) as [Hi0 Hi1].
  pose proof (abscissa_range j Hj) as [Hj0 Hj1].
  pose proof (abscissa_mono i j Hij) as Hx.
  pose proof PI_RGT_0 as Hpi.
  unfold Curve.sample.
  set (xi := INR i / (INR numPoints - 1)) in *.
  set (xj := INR j / (INR numPoints - 1)) in *.
  destruct (Rlt_dec startValue endValue) as [Hup | Hdown].
  - rewrite (Rltb_true _ _ Hup).
    assert (Hc : cos (xj * PI) <= cos (xi * PI)) by (apply cos_decr_1; nra).
    nra.
  - rewrite (Rltb_false startValue endValue) by lra.
    assert (Hc : cos ((1 - xi) * PI) <= cos ((1 - xj) * PI))
      by (apply cos_decr_1; nra).
    nra.
Qed.

Lemma createSCurveFade_non_decreasing :
  non_decreasing (Curve.createSCurveFade startValue endValue numPoints).
Proof.
  intros i j Hij; rewrite length_createSCurveFade in Hij.
  rewrite !nth_createSCurveFade by lia.
  now apply sample_mono.
Qed.

End CurveFacts.

Lemma resolution_two_points : (2 <= CURVE_RESOLUTION)%nat.
Proof. unfold CURVE_RESOLUTION; lia. Qed.

(** A curve requested from a higher to a lower value is not
    non-increasing: its first sample is the lower value, its last the
    higher one. *)
Lemma falling_request_not_non_increasing (startValue endValue : R) (numPoints : nat) :
  (2 <= numPoints)%nat -> endValue < startValue ->
  ~ non_increasing (Curve.createSCurveFade startValue endValue numPoints).
Proof.
  intros Hn Hlt Hmono.
  specialize (Hmono 0%nat (numPoints - 1)%nat).
  rewrite length_createSCurveFade in Hmono.
  rewrite !nth_createSCurveFade in Hmono by lia.
  rewrite sample_first_falling, sample_last_falling in Hmono by (lia || lra).
  assert (startValue <= endValue) by (apply Hmono; lia).
  lra.
Qed.

(** C1 (the code departs from the specification): the curve built at line 90 for
    the outgoing track, [createSCurveFade(1, 0.0001, 512, 'out')], has
    [0.0001] at index 0 and [1] at index 511; the specification asks for [1] at
    index 0 and [0.0001] at index 511. *)
Theorem C1_fade_out_endpoints_swapped :
  let curve :=
    createSCurveFade_call 1 0.0001 CURVE_RESOLUTION [JsString "out"] in
  (nth 0 curve 0 = 0.0001 /\ nth 511 curve 0 = 1)
  /\ (nth 0 curve 0 <> 1 /\ nth 511 curve 0 <> 0.0001).
Proof.
  intros curve; subst curve; unfold createSCurveFade_call.
  assert (H0 : nth 0 (Curve.createSCurveFade 1 0.0001 CURVE_RESOLUTION) 0 = 0.0001).
  { rewrite nth_createSCurveFade by (unfold CURVE_RESOLUTION; lia).
    apply sample_first_falling; lra. }
  assert (H1 : nth 511 (Curve.createSCurveFade 1 0.0001 CURVE_RESOLUTION) 0 = 1).
  { rewrite nth_createSCurveFade by (unfold CURVE_RESOLUTION; lia).
    change 511%nat with (CURVE_RESOLUTION - 1)%nat.
    apply sample_last_falling; [exact resolution_two_points | lra]. }
  rewrite H0, H1; repeat split; lra.
Qed.

(** C2 (the code departs from the specification): the fade-out curve of line 90
    ([endValue < startValue]) is non-decreasing and is not
    non-increasing, where the specification asks for a non-increasing
    sequence.  The fade-in half of the statement holds
    ([createSCurveFade_non_decreasing]). *)
Theorem C2_fade_out_curve_rises :
  let curve := Curve.createSCurveFade 1 0.0001 CURVE_RESOLUTION in
  non_decreasing curve /\ (non_increasing curve -> False).
Proof.
  intros curve; subst curve; split.
  - apply createSCurveFade_non_decreasing; exact resolution_two_points.
  - apply falling_request_not_non_increasing;
      [exact resolution_two_points | lra].
Qed.

(** C10: the curve does not depend on what is passed after the third
    argument; whatever the label, the direction follows from comparing
    the two bounds, so a request from the lower to the higher bound
    starts at [startValue] and ends at [endValue] under either label. *)
Theorem C10_direction_argument_ignored :
  (forall (startValue endValue : R) (numPoints : nat)
          (direction1 direction2 : JsValue),
      createSCurveFade_call startValue endValue numPoints [direction1]
      = createSCurveFade_call startValue endValue numPoints [direction2])
  /\ (forall (startValue endValue : R) (numPoints : nat)
             (extra1 extra2 : list JsValue),
         createSCurveFade_call startValue endValue numPoints extra1
         = createSCurveFade_call startValue endValue numPoints extra2)
  /\ (forall direction : JsValue,
         let curve :=
           createSCurveFade_call 0.0001 1 CURVE_RESOLUTION [direction] in
         nth 0 curve 0 = 0.0001 /\ nth 511 curve 0 = 1).
Proof.
  split; [reflexivity | split; [reflexivity |]].
  intros direction curve; subst curve; unfold createSCurveFade_call.
  rewrite !nth_createSCurveFade by (unfold CURVE_RESOLUTION; lia).
  split.
  - apply sample_first_rising; lra.
  - change 511%nat with (CURVE_RESOLUTION - 1)%nat.
    apply sample_last_rising; [exact resolution_two_points | lra].
Qed.

(** ** BeatAligner *)

(** Decides the comparisons of a closed numeric expression. *)
Ltac solve_R := unfold Rabs; repeat destruct (Rcase_abs _); lra.

Ltac decide_R :=
  repeat match goal with
    | |- context [Rltb ?a ?b] =>
        first [ rewrite (Rltb_true a b) by solve_R
              | rewrite (Rltb_false a b) by solve_R ]
    | |- context [Rleb ?a ?b] =>
        first [ rewrite (Rleb_true a b) by solve_R
              | rewrite (Rleb_false a b) by solve_R ]
    end.

Lemma nearest_first_singleton (mixPoint first : R) :
  nearest_first mixPoint [first] first.
Proof. exists [], []; repeat split; intros b []. Qed.

Lemma nearest_first_snoc (mixPoint : R) (seen : list R) (best curr : R) :
  nearest_first mixPoint seen best ->
  nearest_first mixPoint (seen ++ [curr]) (closer mixPoint best curr).
Proof.
  intros (before & after & -> & Hbefore & Hafter).
  unfold closer, Rltb.
  destruct (Rlt_dec (Rabs (curr - mixPoint)) (Rabs (best - mixPoint))) as [Hlt | Hge].
  - exists (before ++ best :: after), []; repeat split.
    + intros b Hb; apply in_app_or in Hb as [Hb | [<- | Hb]].
      * specialize (Hbefore b Hb); lra.
      * exact Hlt.
      * specialize (Hafter b Hb); lra.
    + intros b [].
  - exists before, (after ++ [curr]); repeat split.
    + now rewrite <- app_assoc.
    + exact Hbefore.
    + intros b Hb; apply in_app_or in Hb as [Hb | [<- | []]].
      * now apply Hafter.
      * lra.
Qed.

Lemma nearest_first_fold (mixPoint : R) (rest seen : list R) (best : R) :
  nearest_first mixPoint seen best ->
  nearest_first mixPoint (seen ++ rest) (fold_left (closer mixPoint) rest best).
Proof.
  revert seen best; induction rest as [| curr rest IH]; intros seen best H.
  - now rewrite app_nil_r.
  - simpl fold_left.
    replace (seen ++ curr :: rest) with ((seen ++ [curr]) ++ rest)
      by now rewrite <- app_assoc.
    apply IH, nearest_first_snoc, H.
Qed.

(** On a non-empty grid the [reduce] returns, and what it returns is the
    nearest beat, the first of the nearest ones. *)
Lemma closestBeat_nearest_first (outgoingBeats : list R) (mixPoint : R) :
  outgoingBeats <> [] ->
  exists anchor,
    closestBeat outgoingBeats mixPoint = Normal anchor
    /\ nearest_first mixPoint outgoingBeats anchor.
Proof.
  destruct outgoingBeats as [| first rest]; [congruence | intros _].
  exists (fold_left (closer mixPoint) rest first); split; [reflexivity |].
  apply (nearest_first_fold mixPoint rest [first] first), nearest_first_singleton.
Qed.

Lemma find_first_above (threshold : R) (l : list R) (x : R) :
  find (fun beat => Rltb threshold beat) l = Some x ->
  exists before after,
    l = before ++ x :: after /\ threshold < x
    /\ forall b, In b before -> b <= threshold.
Proof.
  induction l as [| h t IH]; simpl; [discriminate |].
  destruct (Rltb threshold h) eqn:Hh.
  - intros [= <-]; exists [], t; repeat split.
    + now apply Rltb_iff.
    + intros b [].
  - intros Hx; destruct (IH Hx) as (before & after & -> & Hlt & Hle).
    exists (h :: before), after; repeat split; [exact Hlt |].
    intros b [<- | Hb]; [| now apply Hle].
    unfold Rltb in Hh; destruct (Rlt_dec threshold h); [discriminate | lra].
Qed.

Lemma find_none_above (threshold : R) (l : list R) :
  find (fun beat => Rltb threshold beat) l = None ->
  forall b, In b l -> b <= threshold.
Proof.
  intros H b Hb; pose proof (find_none _ _ H b Hb) as Hf; simpl in Hf.
  unfold Rltb in Hf; destruct (Rlt_dec threshold b); [discriminate | lra].
Qed.

(** Line 162 on a non-empty array. *)
Lemma firstIncoming_cons (first : R) (rest : list R) :
  firstIncoming (first :: rest)
  = match find (fun beat => Rltb 0.1 beat) (first :: rest) with
    | Some beat => beat
    | None => first
    end.
Proof.
  unfold firstIncoming.
  destruct (find _ (first :: rest)) as [beat |] eqn:Hfind.
  - apply find_first_above in Hfind as (_ & _ & _ & Hlt & _).
    unfold js_or_num, js_or, truthy.
    repeat (destruct (Req_dec_T beat 0); try lra); reflexivity.
  - unfold js_or_num, js_or, truthy, hd_error.
    repeat (destruct (Req_dec_T first 0); try lra); congruence.
Qed.

Lemma firstIncoming_nil : firstIncoming [] = 0.
Proof.
  unfold firstIncoming, js_or_num, js_or, truthy; simpl.
  destruct (Req_dec_T 0 0); reflexivity.
Qed.

Lemma firstIncoming_first_usable (incomingBeats : list R) :
  incomingBeats <> [] ->
  first_usable incomingBeats (firstIncoming incomingBeats).
Proof.
  destruct incomingBeats as [| first rest]; [congruence | intros _].
  rewrite firstIncoming_cons.
  destruct (find _ (first :: rest)) as [beat |] eqn:Hfind.
  - left; now apply find_first_above.
  - right; split; [now apply find_none_above | reflexivity].
Qed.

(** *** The method in the monad *)

Lemma quiet_refl (w : World) : quiet w w.
Proof. repeat split. Qed.

Lemma quiet_trans (w1 w2 w3 : World) : quiet w1 w2 -> quiet w2 w3 -> quiet w1 w3.
Proof.
  unfold quiet; intros H12 H23.
  decompose [and] H12; decompose [and] H23; repeat split; congruence.
Qed.

Lemma debugLog_run (msg : LogMsg) (w : World) :
  exists w',
    debugLog msg w = (Normal tt, w')
    /\ quiet w w'
    /\ console w' = console w ++ (if debugMode (engine w) then [msg] else []).
Proof.
  unfold debugLog, bind, getEngine, consoleLog, ret.
  destruct (debugMode (engine w)); eexists; split; try reflexivity;
    split; try apply quiet_refl; simpl; try reflexivity.
  - repeat split.
  - now rewrite app_nil_r.
Qed.

(** The value and the trace of [calculateBeatAlignedStartOffset]: the
    page is left as it was but for the console. *)
Lemma calculateBeatAlignedStartOffset_quiet
  (analysisA analysisB : option Analysis) (mixPoint : R) (w : World) :
  quiet w (snd (calculateBeatAlignedStartOffset analysisA analysisB mixPoint w)).
Proof.
  unfold calculateBeatAlignedStartOffset.
  destruct analysisA as [a |], analysisB as [b |];
    try (unfold bind; destruct (debugLog_run WarnNoBeatData w) as (w' & -> & Hq & _);
         exact Hq).
  destruct (beats a) as [outgoing |], (beats b) as [incoming |];
    try (unfold bind; destruct (debugLog_run WarnNoBeatData w) as (w' & -> & Hq & _);
         exact Hq).
  unfold bind, liftC.
  destruct (closestBeat outgoing mixPoint) as [anchor | e]; [| apply quiet_refl].
  destruct (debugLog_run (LogAligning anchor (firstIncoming incoming)) w)
    as (w' & -> & Hq & _); exact Hq.
Qed.

Lemma offset_with_beats (a b : Analysis) (outgoing incoming : list R)
  (mixPoint : R) (w : World) :
  beats a = Some outgoing -> beats b = Some incoming ->
  match closestBeat outgoing mixPoint with
  | Normal anchor =>
      fst (calculateBeatAlignedStartOffset (Some a) (Some b) mixPoint w)
      = Normal (firstIncoming incoming)
      /\ console (snd (calculateBeatAlignedStartOffset (Some a) (Some b) mixPoint w))
         = console w
           ++ (if debugMode (engine w)
               then [LogAligning anchor (firstIncoming incoming)] else [])
  | Throw e =>
      calculateBeatAlignedStartOffset (Some a) (Some b) mixPoint w = (Throw e, w)
  end.
Proof.
  intros Ha Hb; unfold calculateBeatAlignedStartOffset; rewrite Ha, Hb.
  unfold bind, liftC.
  destruct (closestBeat outgoing mixPoint) as [anchor | e]; [| reflexivity].
  destruct (debugLog_run (LogAligning anchor (firstIncoming incoming)) w)
    as (w' & -> & _ & Hc); split; [reflexivity | exact Hc].
Qed.

(** Without beat data on either side the offset is [0]: a missing
    analysis or a missing [beats] array. *)
Lemma offset_without_beat_data
  (analysisA analysisB : option Analysis) (mixPoint : R) (w : World) :
  analysisA = None \/ analysisB = None
  \/ (exists a, analysisA = Some a /\ beats a = None)
  \/ (exists b, analysisB = Some b /\ beats b = None) ->
  fst (calculateBeatAlignedStartOffset analysisA analysisB mixPoint w) = Normal 0.
Proof.
  intros H; unfold calculateBeatAlignedStartOffset.
  assert (Hwarn : fst ((debugLog WarnNoBeatData ;; ret 0) w) = Normal 0).
  { unfold bind; destruct (debugLog_run WarnNoBeatData w) as (w' & -> & _);
      reflexivity. }
  destruct analysisA as [a |], analysisB as [b |]; try exact Hwarn.
  - destruct (beats a) as [outgoing |] eqn:Ha, (beats b) as [incoming |] eqn:Hb;
      try exact Hwarn.
    destruct H as [H | [H | [(a' & [= <-] & H) | (b' & [= <-] & H)]]]; congruence.
Qed.

(** An empty incoming array, against a non-empty outgoing one, also
    gives [0]. *)
Lemma offset_empty_incoming (a b : Analysis) (outgoing : list R)
  (mixPoint : R) (w : World) :
  beats a = Some outgoing -> outgoing <> [] -> beats b = Some [] ->
  fst (calculateBeatAlignedStartOffset (Some a) (Some b) mixPoint w) = Normal 0.
Proof.
  intros Ha Hne Hb.
  pose proof (offset_with_beats a b outgoing [] mixPoint w Ha Hb) as H.
  destruct (closestBeat_nearest_first outgoing mixPoint Hne) as (anchor & Hc & _).
  rewrite Hc in H; destruct H as [H _]; rewrite H, firstIncoming_nil; reflexivity.
Qed.

(** C4 (the code departs from the specification): with an outgoing [beats]
    array that is present and empty, and an incoming [beats] array
    present, the guard of line 148 lets the call through and the
    [reduce] of line 157 throws; the specification asks for the result
    [0].  The other cases of the statement hold ([offset_without_beat_data],
    [offset_empty_incoming]). *)
Theorem C4_empty_outgoing_beats_throws :
  forall (w : World) (bpmA bpmB mixPoint : R) (incomingBeats : list R),
    calculateBeatAlignedStartOffset
      (Some {| bpm := bpmA; beats := Some [] |})
      (Some {| bpm := bpmB; beats := Some incomingBeats |}) mixPoint w
    = (Throw (TypeError "Reduce of empty array with no initial value"), w).
Proof. reflexivity. Qed.

(** C8: with both beat arrays present and non-empty, the method anchors
    to the outgoing beat nearest to the mix point, the first of the
    nearest ones (the anchor is what debug mode logs), and returns the
    first incoming beat strictly above 0.1 s, or the first incoming beat
    when none is above 0.1 s; on the grids of the specification the
    anchor is 10.5 and the offset 0.6. *)
Theorem C8_beat_alignment :
  (forall (w : World) (a b : Analysis) (outgoing incoming : list R)
          (mixPoint : R),
      beats a = Some outgoing -> beats b = Some incoming ->
      outgoing <> [] -> incoming <> [] ->
      exists anchor,
        closestBeat outgoing mixPoint = Normal anchor
        /\ nearest_first mixPoint outgoing anchor
        /\ fst (calculateBeatAlignedStartOffset (Some a) (Some b) mixPoint w)
           = Normal (firstIncoming incoming)
        /\ first_usable incoming (firstIncoming incoming)
        /\ console (snd (calculateBeatAlignedStartOffset
                           (Some a) (Some b) mixPoint w))
           = console w
             ++ (if debugMode (engine w)
                 then [LogAligning anchor (firstIncoming incoming)] else []))
  /\ closestBeat [10; 10.5; 11] 10.4 = Normal 10.5
  /\ (forall w bpmA bpmB,
         fst (calculateBeatAlignedStartOffset
                (Some {| bpm := bpmA; beats := Some [10; 10.5; 11] |})
                (Some {| bpm := bpmB; beats := Some [0.05; 0.6; 1.2] |})
                10.4 w)
         = Normal 0.6).
Proof.
  assert (Hanchor : closestBeat [10; 10.5; 11] 10.4 = Normal 10.5).
  { unfold closestBeat, reduce, fold_left, closer; decide_R; reflexivity. }
  assert (Hfirst : firstIncoming [0.05; 0.6; 1.2] = 0.6).
  { rewrite firstIncoming_cons; unfold find; decide_R; reflexivity. }
  split; [| split; [exact Hanchor |]].
  - intros w a b outgoing incoming mixPoint Ha Hb Hout Hin.
    destruct (closestBeat_nearest_first outgoing mixPoint Hout)
      as (anchor & Hc & Hnear).
    pose proof (offset_with_beats a b outgoing incoming mixPoint w Ha Hb) as H.
    rewrite Hc in H; destruct H as [Hv Hlog].
    exists anchor; repeat split; try assumption.
    now apply firstIncoming_first_usable.
  - intros w bpmA bpmB.
    pose proof (offset_with_beats
                  {| bpm := bpmA; beats := Some [10; 10.5; 11] |}
                  {| bpm := bpmB; beats := Some [0.05; 0.6; 1.2] |}
                  _ _ 10.4 w eq_refl eq_refl) as H.
    rewrite Hanchor in H; destruct H as [H _]; rewrite H, Hfirst; reflexivity.
Qed.

(** ** CrossfadeScheduler *)

(** Runs the primitive steps of the monad on a page given field by
    field. *)
Ltac run_page :=
  cbv [bind ret throw liftC getEngine updEngine consoleLog debugLog
       getCrossfadeDuration currentTime typeofAnimeDefined record freshNode
       createBufferSource createGain offlineContext setTimeout_clearIsMixing
       deref setDebugMode syncCrossfadeAnimation resampleBufferForTempo
       set_isMixing set_debugMode set_sourceNodeA set_sourceNodeB
       set_gainNodeA set_gainNodeB
       engine pm_crossfadeDuration ctx_currentTime animeDefined nextNode
       calls renders console timers
       isMixing debugMode sourceNodeA sourceNodeB gainNodeA gainNodeB
       fst snd].

(** What lines 64-122 do, by the outcome of the beat alignment and of
    the test of line 71. *)
Lemma startAutoMix_schedule_run
  (cur next : Track) (pos crossfade mixPoint : R) (bufferB : AudioBuffer)
  (w : World) :
  let now := ctx_currentTime w in
  let mixStartTime := now + (mixPoint - pos) in
  let r := startAutoMix_schedule cur next pos crossfade mixPoint bufferB w in
  match fst (calculateBeatAlignedStartOffset
               (analysis cur) (analysis next) mixPoint w) with
  | Throw e => fst r = Throw e /\ quiet w (snd r)
  | Normal startTimeB =>
      if Rleb mixStartTime now then
        fst r = Normal false
        /\ engine (snd r) = set_isMixing false (engine w)
        /\ calls (snd r) = calls w
        /\ timers (snd r) = timers w
        /\ renders (snd r) = renders w
        /\ nextNode (snd r) = nextNode w
      else
        fst r = Normal true
        /\ engine (snd r)
           = set_gainNodeB (S (S (S (nextNode w))))
               (set_gainNodeA (S (S (nextNode w)))
                  (set_sourceNodeB (S (nextNode w))
                     (set_sourceNodeA (nextNode w) (engine w))))
        /\ nextNode (snd r) = S (S (S (S (nextNode w))))
        /\ timers (snd r)
           = timers w ++ [(mixStartTime - now + crossfade) * 1000]
        /\ renders (snd r) = renders w
        /\ calls (snd r)
           = calls w
             ++ armedCalls (nextNode w) (buffer cur) bufferB
                  mixStartTime crossfade startTimeB
             ++ (if animeDefined w
                 then [Anime (if Rltb 0 ((mixStartTime - now) * 1000)
                              then (mixStartTime - now) * 1000 else 0)
                             (crossfade * 1000)]
                 else [])
  end.
Proof.
  intros now mixStartTime r.
  unfold startAutoMix_schedule, bind in r; subst now mixStartTime r.
  pose proof (calculateBeatAlignedStartOffset_quiet
                (analysis cur) (analysis next) mixPoint w) as Hq.
  destruct (calculateBeatAlignedStartOffset
              (analysis cur) (analysis next) mixPoint w)
    as [[startTimeB | e] w1]; cbn [fst snd] in *.
  2: { split; [reflexivity | exact Hq]. }
  destruct Hq as (He & Hcf & Hnow & Hanime & Hnode & Hcalls & Hrenders & Htimers).
  rewrite <- He, <- Hnow, <- Hanime, <- Hnode, <- Hcalls, <- Hrenders, <- Htimers.
  clear He Hcf Hnow Hanime Hnode Hcalls Hrenders Htimers.
  destruct w1 as [[mixing dbg sA sB gA gB] cf t anime n cs rs con ts].
  run_page.
  destruct (Rleb (t + (mixPoint - pos)) t).
  - destruct dbg; run_page; repeat split.
  - destruct dbg, anime; run_page; repeat split;
      unfold armedCalls; repeat rewrite <- app_assoc; reflexivity.
Qed.

Lemma tempoTest_spec (a b : Analysis) :
  tempoTest a b = true <-> isResamplingNeeded_spec (bpm a) (bpm b).
Proof.
  unfold tempoTest, isResamplingNeeded_spec.
  rewrite andb_true_iff, !Rltb_iff; split; intros [H1 H2]; split; lra.
Qed.

Lemma armed_fields (w : World) :
  engine (armed w) = set_isMixing true (engine w)
  /\ pm_crossfadeDuration (armed w) = pm_crossfadeDuration w
  /\ ctx_currentTime (armed w) = ctx_currentTime w
  /\ animeDefined (armed w) = animeDefined w
  /\ nextNode (armed w) = nextNode w
  /\ calls (armed w) = calls w
  /\ renders (armed w) = renders w
  /\ timers (armed w) = timers w.
Proof.
  unfold armed.
  destruct w as [[mixing dbg sA sB gA gB] cf t anime n cs rs con ts].
  destruct dbg; run_page; repeat split.
Qed.

(** Lines 40-43: a call on a busy engine. *)
Lemma startAutoMix_enter_busy (cur next : Track) (pos : R) (w : World) :
  isMixing (engine w) = true ->
  exists w',
    startAutoMix_enter cur next pos w = (Normal (Done false), w')
    /\ quiet w w'
    /\ console w'
       = console w ++ (if debugMode (engine w) then [WarnAlreadyMixing] else []).
Proof.
  intros Hbusy; unfold startAutoMix_enter.
  destruct w as [[mixing dbg sA sB gA gB] cf t anime n cs rs con ts].
  simpl in Hbusy; subst mixing.
  destruct dbg; run_page; eexists; (split; [reflexivity |]);
    split; try (repeat split; fail); simpl; try reflexivity.
  now rewrite app_nil_r.
Qed.

(** Line 58 on an idle engine with an analysis missing: the read of
    [bpm] throws after the flag was set. *)
Lemma startAutoMix_enter_no_analysis (cur next : Track) (pos : R) (w : World) :
  isMixing (engine w) = false ->
  analysis cur = None \/ analysis next = None ->
  exists e, startAutoMix_enter cur next pos w = (Throw (TypeError e), armed w).
Proof.
  intros Hidle Hnone; unfold startAutoMix_enter, armed.
  destruct w as [[mixing dbg sA sB gA gB] cf t anime n cs rs con ts].
  simpl in Hidle; subst mixing.
  destruct (analysis cur) as [a |], (analysis next) as [b |];
    try (destruct Hnone; discriminate);
    destruct dbg; run_page; eexists; reflexivity.
Qed.

(** Lines 59-61 on an idle engine, when the test of line 59 holds: the
    call parks at the [await] with the offline render requested. *)
Lemma startAutoMix_enter_await
  (cur next : Track) (pos : R) (a b : Analysis) (w : World) :
  isMixing (engine w) = false ->
  analysis cur = Some a -> analysis next = Some b ->
  tempoTest a b = true ->
  exists w',
    startAutoMix_enter cur next pos w
    = (Normal
         (Await {| fr_currentTrack := cur;
                   fr_nextTrack := next;
                   fr_currentPosition := pos;
                   fr_crossfadeDuration := pm_crossfadeDuration w;
                   fr_mixPoint := duration (buffer cur) - pm_crossfadeDuration w;
                   fr_request := requestFor (buffer next) a b |}),
       w')
    /\ engine w' = set_isMixing true (engine w)
    /\ pm_crossfadeDuration w' = pm_crossfadeDuration w
    /\ ctx_currentTime w' = ctx_currentTime w
    /\ animeDefined w' = animeDefined w
    /\ nextNode w' = nextNode w
    /\ calls w' = calls w
    /\ renders w' = renders w ++ [requestFor (buffer next) a b]
    /\ timers w' = timers w.
Proof.
  intros Hidle Ha Hb Htest; unfold startAutoMix_enter, tempoTest in *.
  rewrite Ha, Hb.
  destruct w as [[mixing dbg sA sB gA gB] cf t anime n cs rs con ts].
  simpl in Hidle; subst mixing.
  destruct dbg; run_page; rewrite Htest; run_page;
    eexists; (split; [reflexivity |]); repeat split.
Qed.

(** Lines 59-122 on an idle engine, when the test of line 59 fails: the
    call runs to its end. *)
Lemma startAutoMix_enter_direct
  (cur next : Track) (pos : R) (a b : Analysis) (w : World) :
  isMixing (engine w) = false ->
  analysis cur = Some a -> analysis next = Some b ->
  tempoTest a b = false ->
  let r := startAutoMix_schedule cur next pos (pm_crossfadeDuration w)
             (duration (buffer cur) - pm_crossfadeDuration w)
             (buffer next) (armed w) in
  startAutoMix_enter cur next pos w
  = (match fst r with
     | Normal result => Normal (Done result)
     | Throw e => Throw e
     end, snd r).
Proof.
  intros Hidle Ha Hb Htest r; subst r; unfold startAutoMix_enter, armed, tempoTest in *.
  rewrite Ha, Hb.
  destruct w as [[mixing dbg sA sB gA gB] cf t anime n cs rs con ts].
  simpl in Hidle; subst mixing.
  destruct dbg; run_page; rewrite Htest;
    match goal with
    | |- context [startAutoMix_schedule ?c ?n ?p ?d ?m ?bf ?w0] =>
        destruct (startAutoMix_schedule c n p d m bf w0) as [[result | e] w']
    end; reflexivity.
Qed.

(** *** The flag and the timers, by outcome *)

Lemma startAutoMix_schedule_summary
  (cur next : Track) (pos crossfade mixPoint : R) (bufferB : AudioBuffer)
  (w : World) :
  let r := startAutoMix_schedule cur next pos crossfade mixPoint bufferB w in
  match fst r with
  | Throw _ =>
      isMixing (engine (snd r)) = isMixing (engine w)
      /\ timers (snd r) = timers w
  | Normal false =>
      isMixing (engine (snd r)) = false /\ timers (snd r) = timers w
  | Normal true =>
      isMixing (engine (snd r)) = isMixing (engine w)
      /\ exists delay, timers (snd r) = timers w ++ [delay]
  end.
Proof.
  intros r; subst r.
  pose proof (startAutoMix_schedule_run cur next pos crossfade mixPoint bufferB w)
    as H; cbv zeta in H.
  destruct (fst (calculateBeatAlignedStartOffset
                   (analysis cur) (analysis next) mixPoint w)) as [offset | e].
  - destruct (Rleb _ _).
    + destruct H as (-> & He & _ & Ht & _); rewrite He; split; [reflexivity | exact Ht].
    + destruct H as (-> & He & _ & Ht & _); rewrite He; split;
        [reflexivity | eexists; exact Ht].
  - destruct H as (-> & He & _ & _ & _ & _ & _ & _ & Ht); rewrite He; split;
      [reflexivity | exact Ht].
Qed.

Lemma startAutoMix_resume_summary
  (f : Frame) (settled : Completion AudioBuffer) (w : World) :
  let r := startAutoMix_resume f settled w in
  match fst r with
  | Throw _ =>
      isMixing (engine (snd r)) = isMixing (engine w)
      /\ timers (snd r) = timers w
  | Normal false =>
      isMixing (engine (snd r)) = false /\ timers (snd r) = timers w
  | Normal true =>
      isMixing (engine (snd r)) = isMixing (engine w)
      /\ exists delay, timers (snd r) = timers w ++ [delay]
  end.
Proof.
  unfold startAutoMix_resume, bind, liftC.
  destruct settled as [bufferB | e]; [| simpl; split; reflexivity].
  apply startAutoMix_schedule_summary.
Qed.

Lemma startAutoMix_enter_summary (cur next : Track) (pos : R) (w : World) :
  let r := startAutoMix_enter cur next pos w in
  if isMixing (engine w) then
    fst r = Normal (Done false)
    /\ isMixing (engine (snd r)) = true /\ timers (snd r) = timers w
  else
    match fst r with
    | Throw _ | Normal (Await _) =>
        isMixing (engine (snd r)) = true /\ timers (snd r) = timers w
    | Normal (Done false) =>
        isMixing (engine (snd r)) = false /\ timers (snd r) = timers w
    | Normal (Done true) =>
        isMixing (engine (snd r)) = true
        /\ exists delay, timers (snd r) = timers w ++ [delay]
    end.
Proof.
  intros r; subst r.
  destruct (isMixing (engine w)) eqn:Hflag.
  - destruct (startAutoMix_enter_busy cur next pos w Hflag)
      as (w' & -> & (He & _ & _ & _ & _ & _ & _ & Ht) & _); simpl.
    rewrite He, Ht; repeat split; exact Hflag.
  - pose proof (armed_fields w) as (Hae & _ & _ & _ & _ & _ & _ & Hat).
    assert (Harmed : isMixing (engine (armed w)) = true) by now rewrite Hae.
    destruct (analysis cur) as [a |] eqn:Ha.
    2: { destruct (startAutoMix_enter_no_analysis cur next pos w Hflag)
           as (e & ->); [now left | simpl; now split]. }
    destruct (analysis next) as [b |] eqn:Hb.
    2: { destruct (startAutoMix_enter_no_analysis cur next pos w Hflag)
           as (e & ->); [now right | simpl; now split]. }
    destruct (tempoTest a b) eqn:Htest.
    + destruct (startAutoMix_enter_await cur next pos a b w Hflag Ha Hb Htest)
        as (w' & -> & He & _ & _ & _ & _ & _ & _ & Ht); simpl.
      rewrite He; split; [reflexivity | exact Ht].
    + rewrite (startAutoMix_enter_direct cur next pos a b w Hflag Ha Hb Htest).
      cbv zeta; simpl fst; simpl snd.
      pose proof (startAutoMix_schedule_summary cur next pos
                    (pm_crossfadeDuration w)
                    (duration (buffer cur) - pm_crossfadeDuration w)
                    (buffer next) (armed w)) as H; cbv zeta in H.
      destruct (fst (startAutoMix_schedule _ _ _ _ _ _ (armed w)))
        as [[|] | e]; rewrite ?Harmed, ?Hat in H; exact H.
Qed.

Lemma simulateMixSession_quiet (cur next : option Track) (w : World) :
  quiet w (snd (simulateMixSession cur next w)).
Proof.
  unfold simulateMixSession.
  destruct cur as [cur |], next as [next |]; try apply quiet_refl.
  destruct (analysis cur) as [a |], (analysis next) as [b0 |];
    try apply quiet_refl.
  unfold bind at 1, getCrossfadeDuration; cbv zeta.
  change (Rltb (bpm a * 0.03) (Rabs (bpm a - bpm b0))
          && Rltb (Rabs (bpm a - bpm b0)) (bpm a * 0.25)) with (tempoTest a b0).
  set (mixPoint := duration (buffer cur) - pm_crossfadeDuration w).
  set (b := if tempoTest a b0
            then {| bpm := bpm a; beats := beats b0 |} else b0).
  unfold bind at 1.
  pose proof (calculateBeatAlignedStartOffset_quiet (Some a) (Some b) mixPoint w)
    as Hq.
  destruct (calculateBeatAlignedStartOffset (Some a) (Some b) mixPoint w)
    as [[offset | e] w1]; cbn [snd] in Hq; [| exact Hq].
  destruct (debugLog_run LogSimulation w1) as (w2 & Hlog & Hq2 & _).
  destruct (beats a) as [bs |].
  - unfold bind, liftC, ret.
    destruct (reduce (closer mixPoint) bs) as [c | e]; [| exact Hq].
    rewrite Hlog; cbn [snd]; eapply quiet_trans; eassumption.
  - unfold bind, ret.
    rewrite Hlog; cbn [snd]; eapply quiet_trans; eassumption.
Qed.

(** *** The single-session invariant *)

Lemma newPage_consistent (crossfade now : R) (anime : bool) :
  consistent (newPage crossfade now anime).
Proof. split; [reflexivity | unfold sessions; simpl; lia]. Qed.

(** Closes a goal about the flag and the number of sessions. *)
Ltac finish_sessions :=
  repeat rewrite length_app in *; cbn [List.length] in *;
  repeat split; intros;
  repeat match goal with
    | H : ?P -> _, H' : ?P |- _ => specialize (H H')
    end;
  try discriminate; try congruence; try lia.

(** Every task keeps the page consistent; a rejected [startAutoMix]
    leaves the flag set with no session in flight. *)
Lemma step_consistent (p q : Page) (o : Outcome) :
  consistent p -> step p o q ->
  consistent q
  /\ (forall e, o = Rejected e ->
        isMixing (engine (world q)) = true /\ sessions q = 0%nat).
Proof.
  intros [Hidle Hone] Hstep; unfold consistent, sessions in *.
  destruct Hstep as
    [ p cur next pos result w' Hrun
    | p cur next pos f w' Hrun
    | p cur next pos e w' Hrun
    | p before f after settled result w' Hsusp Hrun
    | p before f after settled e w' Hsusp Hrun
    | p before delay after Htimers
    | p enabled w' Hrun
    | p cur next c w' Hrun
    | p crossfade now Hclock ]; cbn [world suspended].
  - (* a call that ran to its end *)
    pose proof (startAutoMix_enter_summary cur next pos (world p)) as S.
    cbv zeta in S; rewrite Hrun in S; cbn [fst snd] in S.
    destruct (isMixing (engine (world p))).
    + destruct S as (_ & -> & ->); finish_sessions.
    + specialize (Hidle eq_refl).
      destruct result.
      * destruct S as (-> & delay & ->); finish_sessions.
      * destruct S as (-> & ->); finish_sessions.
  - (* a call that parked at the await *)
    pose proof (startAutoMix_enter_summary cur next pos (world p)) as S.
    cbv zeta in S; rewrite Hrun in S; cbn [fst snd] in S.
    destruct (isMixing (engine (world p))).
    + destruct S as (S & _); discriminate.
    + specialize (Hidle eq_refl); destruct S as (-> & ->); finish_sessions.
  - (* a call that threw *)
    pose proof (startAutoMix_enter_summary cur next pos (world p)) as S.
    cbv zeta in S; rewrite Hrun in S; cbn [fst snd] in S.
    destruct (isMixing (engine (world p))).
    + destruct S as (S & _); discriminate.
    + specialize (Hidle eq_refl); destruct S as (-> & ->); finish_sessions.
  - (* a resumed call that ran to its end *)
    rewrite Hsusp in Hidle, Hone.
    assert (Hbusy : isMixing (engine (world p)) = true).
    { destruct (isMixing (engine (world p))); [reflexivity |].
      specialize (Hidle eq_refl); finish_sessions. }
    pose proof (startAutoMix_resume_summary f settled (world p)) as S.
    cbv zeta in S; rewrite Hrun in S; cbn [fst snd] in S.
    destruct result.
    + destruct S as (-> & delay & ->); finish_sessions.
    + destruct S as (-> & ->); finish_sessions.
  - (* a resumed call that threw *)
    rewrite Hsusp in Hidle, Hone.
    assert (Hbusy : isMixing (engine (world p)) = true).
    { destruct (isMixing (engine (world p))); [reflexivity |].
      specialize (Hidle eq_refl); finish_sessions. }
    pose proof (startAutoMix_resume_summary f settled (world p)) as S.
    cbv zeta in S; rewrite Hrun in S; cbn [fst snd] in S.
    destruct S as (-> & ->); finish_sessions.
  - (* the timer *)
    rewrite Htimers in Hidle, Hone.
    unfold fireTimer; cbn [engine timers set_isMixing isMixing].
    finish_sessions.
  - (* setDebugMode *)
    unfold setDebugMode, bind, updEngine, consoleLog in Hrun.
    injection Hrun as <-; cbn [engine timers set_debugMode isMixing].
    finish_sessions.
  - (* simulateMixSession *)
    pose proof (simulateMixSession_quiet cur next (world p)) as Hq.
    rewrite Hrun in Hq; cbn [snd] in Hq.
    destruct Hq as (-> & _ & _ & _ & _ & _ & _ & ->).
    finish_sessions.
  - (* the environment *)
    unfold setEnvironment; cbn [engine timers].
    finish_sessions.
Qed.

Lemma reaches_consistent (p q : Page) :
  consistent p -> reaches p q -> consistent q.
Proof.
  intros Hp Hreach; induction Hreach as [| q o r _ IH Hstep]; [exact Hp |].
  exact (proj1 (step_consistent q r o IH Hstep)).
Qed.

Lemma reaches_trans (p q r : Page) : reaches p q -> reaches q r -> reaches p r.
Proof.
  intros Hpq Hqr; induction Hqr as [| r o s _ IH Hstep]; [exact Hpq |].
  exact (reaches_step p r o s IH Hstep).
Qed.

(** A stuck page stays stuck: nothing is left that could clear the flag. *)
Lemma step_stuck (p q : Page) (o : Outcome) : stuck p -> step p o q -> stuck q.
Proof.
  intros [Hbusy Hnone] Hstep; unfold stuck, sessions in *.
  assert (Hs : suspended p = []) by (destruct (suspended p); [reflexivity | simpl in Hnone; lia]).
  assert (Ht : timers (world p) = []) by (destruct (timers (world p)); [reflexivity | simpl in Hnone; lia]).
  destruct Hstep as
    [ p cur next pos result w' Hrun
    | p cur next pos f w' Hrun
    | p cur next pos e w' Hrun
    | p before f after settled result w' Hsusp Hrun
    | p before f after settled e w' Hsusp Hrun
    | p before delay after Htimers
    | p enabled w' Hrun
    | p cur next c w' Hrun
    | p crossfade now Hclock ]; simpl;
    try (destruct (startAutoMix_enter_busy cur next pos (world p) Hbusy)
           as (w0 & Hrun0 & (He & _ & _ & _ & _ & _ & _ & Hti) & _);
         rewrite Hrun0 in Hrun; injection Hrun as <-; try subst;
         rewrite He, Hti, Hs, Ht; split; [exact Hbusy | reflexivity]);
    try (destruct (startAutoMix_enter_busy cur next pos (world p) Hbusy)
           as (w0 & Hrun0 & _); rewrite Hrun0 in Hrun; discriminate);
    try (rewrite Hs in Hsusp; destruct before; discriminate).
  - rewrite Ht in Htimers; destruct before; discriminate.
  - unfold setDebugMode, bind, updEngine, consoleLog in Hrun.
    injection Hrun as <-; simpl; rewrite Hs, Ht; split; [exact Hbusy | reflexivity].
  - pose proof (simulateMixSession_quiet cur next (world p)) as Hq.
    rewrite Hrun in Hq; simpl in Hq.
    destruct Hq as (-> & _ & _ & _ & _ & _ & _ & ->).
    rewrite Hs, Ht; split; [exact Hbusy | reflexivity].
  - rewrite Hs, Ht; split; [exact Hbusy | reflexivity].
Qed.

Lemma reaches_stuck (p q : Page) : stuck p -> reaches p q -> stuck q.
Proof.
  intros Hp Hreach; induction Hreach as [| q o r _ IH Hstep]; [exact Hp |].
  exact (step_stuck q r o IH Hstep).
Qed.

Lemma set_isMixing_restore (e : Engine) :
  isMixing e = false -> set_isMixing false (set_isMixing true e) = e.
Proof. destruct e; simpl; intros ->; reflexivity. Qed.

(** The beat alignment returns unless it reaches the [reduce] with an
    empty outgoing array. *)
Lemma offset_returns (a b : Analysis) (mixPoint : R) (w : World) :
  (beats a = Some [] -> beats b = None) ->
  exists offset,
    fst (calculateBeatAlignedStartOffset (Some a) (Some b) mixPoint w)
    = Normal offset.
Proof.
  intros Hne.
  destruct (beats b) as [incoming |] eqn:Hb.
  - destruct (beats a) as [outgoing |] eqn:Ha.
    + pose proof (offset_with_beats a b outgoing incoming mixPoint w Ha Hb) as H.
      destruct (closestBeat_nearest_first outgoing mixPoint) as (anchor & Hc & _).
      { intros ->; specialize (Hne eq_refl); discriminate. }
      rewrite Hc in H; destruct H as [H _]; eexists; exact H.
    + exists 0; apply offset_without_beat_data.
      right; right; left; exists a; now split.
  - exists 0; apply offset_without_beat_data.
    right; right; right; exists b; now split.
Qed.

(** Line 71 taken: the call returns [false] with the flag cleared and
    nothing allocated or scheduled. *)
Lemma startAutoMix_schedule_past
  (cur next : Track) (pos crossfade mixPoint : R) (bufferB : AudioBuffer)
  (a b : Analysis) (w : World) :
  analysis cur = Some a -> analysis next = Some b ->
  (beats a = Some [] -> beats b = None) ->
  mixPoint - pos <= 0 ->
  exists w',
    startAutoMix_schedule cur next pos crossfade mixPoint bufferB w
    = (Normal false, w')
    /\ engine w' = set_isMixing false (engine w)
    /\ calls w' = calls w /\ timers w' = timers w
    /\ renders w' = renders w /\ nextNode w' = nextNode w.
Proof.
  intros Ha Hb Hne Hpast.
  pose proof (startAutoMix_schedule_run cur next pos crossfade mixPoint bufferB w)
    as H; cbv zeta in H.
  rewrite Ha, Hb in H.
  destruct (offset_returns a b mixPoint w Hne) as (offset & Hoff).
  rewrite Hoff, Rleb_true in H by lra.
  destruct (startAutoMix_schedule cur next pos crossfade mixPoint bufferB w)
    as [c w']; simpl in H.
  destruct H as (-> & H); exists w'; split; [reflexivity | exact H].
Qed.

Lemma startAutoMix_unfold
  (render : OfflineRequest -> Completion AudioBuffer)
  (cur next : Track) (pos : R) (w : World) :
  startAutoMix render cur next pos w
  = match startAutoMix_enter cur next pos w with
    | (Normal (Done result), w') => (Normal result, w')
    | (Normal (Await f), w') => startAutoMix_resume f (render (fr_request f)) w'
    | (Throw e, w') => (Throw e, w')
    end.
Proof.
  unfold startAutoMix, bind.
  destruct (startAutoMix_enter cur next pos w) as [[[result | f] | e] w'];
    reflexivity.
Qed.

(** C5: a page reached from a new engine never has more than one
    session in flight, and a call of [startAutoMix] on an engine whose
    flag is set returns [false] at once, leaving the flag, the node
    fields, the recorded backend calls, the offline renders and the
    timers as they were. *)
Theorem C5_single_session :
  (forall (crossfade now : R) (anime : bool) (p : Page),
      reaches (newPage crossfade now anime) p -> (sessions p <= 1)%nat)
  /\ (forall (w : World) (cur next : Track) (pos : R),
         isMixing (engine w) = true ->
         exists w',
           startAutoMix_enter cur next pos w = (Normal (Done false), w')
           /\ quiet w w')
  /\ (forall (render : OfflineRequest -> Completion AudioBuffer)
             (w : World) (cur next : Track) (pos : R),
         isMixing (engine w) = true ->
         exists w',
           startAutoMix render cur next pos w = (Normal false, w')
           /\ quiet w w').
Proof.
  split; [| split].
  - intros crossfade now anime p Hreach.
    exact (proj2 (reaches_consistent _ _ (newPage_consistent crossfade now anime) Hreach)).
  - intros w cur next pos Hbusy.
    destruct (startAutoMix_enter_busy cur next pos w Hbusy) as (w' & Hrun & Hq & _).
    exists w'; split; assumption.
  - intros render w cur next pos Hbusy.
    destruct (startAutoMix_enter_busy cur next pos w Hbusy) as (w' & Hrun & Hq & _).
    exists w'; rewrite startAutoMix_unfold, Hrun; split; [reflexivity | exact Hq].
Qed.

Lemma C5_single_session_witness :
  isMixing (engine busyWorld) = true
  /\ exists w',
       startAutoMix workingRender
         (exampleTrack 120 None) (exampleTrack 128 None) 0 busyWorld
       = (Normal false, w')
       /\ quiet busyWorld w'.
Proof.
  split; [reflexivity |].
  apply (proj2 (proj2 C5_single_session)); reflexivity.
Defined.

(** C6: on an idle engine, when the steps before line 69 complete (both
    analyses are there, the offline render resolves if it is asked for,
    the [reduce] of line 157 is not run on an empty array), a mix point
    that is not ahead of the current position makes [startAutoMix]
    return [false] with the flag cleared, the node fields untouched, no
    backend call recorded and no timer set. *)
Theorem C6_past_mix_point_aborts :
  forall (render : OfflineRequest -> Completion AudioBuffer)
         (w : World) (cur next : Track) (pos : R) (a b : Analysis),
    isMixing (engine w) = false ->
    analysis cur = Some a -> analysis next = Some b ->
    (beats a = Some [] -> beats b = None) ->
    (tempoTest a b = true ->
     exists bufferB, render (requestFor (buffer next) a b) = Normal bufferB) ->
    duration (buffer cur) - pm_crossfadeDuration w - pos <= 0 ->
    ctx_currentTime w + (duration (buffer cur) - pm_crossfadeDuration w - pos)
    <= ctx_currentTime w
    /\ exists w',
         startAutoMix render cur next pos w = (Normal false, w')
         /\ isMixing (engine w') = false
         /\ engine w' = engine w
         /\ calls w' = calls w
         /\ timers w' = timers w
         /\ nextNode w' = nextNode w.
Proof.
  intros render w cur next pos a b Hidle Ha Hb Hne Hrender Hpast.
  split; [lra |].
  rewrite startAutoMix_unfold.
  pose proof (armed_fields w) as (Hae & _ & _ & _ & Han & Hac & _ & Hat).
  destruct (tempoTest a b) eqn:Htest.
  - destruct (startAutoMix_enter_await cur next pos a b w Hidle Ha Hb Htest)
      as (w1 & -> & He1 & _ & _ & _ & Hn1 & Hc1 & _ & Ht1).
    destruct (Hrender eq_refl) as (bufferB & Hok).
    cbn [fr_request]; rewrite Hok.
    unfold startAutoMix_resume, bind, liftC;
      cbn [fr_currentTrack fr_nextTrack fr_currentPosition
           fr_crossfadeDuration fr_mixPoint].
    destruct (startAutoMix_schedule_past cur next pos (pm_crossfadeDuration w)
                (duration (buffer cur) - pm_crossfadeDuration w) bufferB a b w1
                Ha Hb Hne Hpast)
      as (w' & -> & He & Hc & Ht & _ & Hn).
    exists w'; split; [reflexivity |].
    rewrite He, He1, set_isMixing_restore by exact Hidle.
    repeat split; congruence.
  - rewrite (startAutoMix_enter_direct cur next pos a b w Hidle Ha Hb Htest).
    cbv zeta.
    destruct (startAutoMix_schedule_past cur next pos (pm_crossfadeDuration w)
                (duration (buffer cur) - pm_crossfadeDuration w) (buffer next)
                a b (armed w) Ha Hb Hne Hpast)
      as (w' & -> & He & Hc & Ht & _ & Hn).
    exists w'; split; [reflexivity |].
    rewrite He, Hae, set_isMixing_restore by exact Hidle.
    repeat split; congruence.
Qed.

Lemma C6_past_mix_point_aborts_witness :
  exists w',
    startAutoMix workingRender
      (exampleTrack 120 (Some [10; 10.5; 11]))
      (exampleTrack 128 (Some [0.05; 0.6; 1.2])) 195 (newWorld 8 0 false)
    = (Normal false, w')
    /\ isMixing (engine w') = false
    /\ engine w' = newEngine
    /\ calls w' = []
    /\ timers w' = []
    /\ nextNode w' = 0%nat.
Proof.
  refine (proj2 (C6_past_mix_point_aborts workingRender (newWorld 8 0 false)
                   (exampleTrack 120 (Some [10; 10.5; 11]))
                   (exampleTrack 128 (Some [0.05; 0.6; 1.2])) 195
                   {| bpm := 120; beats := Some [10; 10.5; 11] |}
                   {| bpm := 128; beats := Some [0.05; 0.6; 1.2] |}
                   eq_refl eq_refl eq_refl _ _ _)).
  - discriminate.
  - intros _; eexists; reflexivity.
  - simpl; lra.
Defined.

(** *** The tempo window *)

(** [simulateMixSession] returns a report unless the outgoing beat array
    is empty, and the report carries the result of the test of line 250. *)
Lemma simulateMixSession_report
  (cur next : Track) (a b : Analysis) (w : World) :
  analysis cur = Some a -> analysis next = Some b -> beats a <> Some [] ->
  exists r,
    fst (simulateMixSession (Some cur) (Some next) w) = Normal (SimReport r)
    /\ resamplingNeeded r = tempoTest a b
    /\ resampledBPM r = (if tempoTest a b then Some (bpm a) else None)
    /\ trackA_BPM r = bpm a /\ trackB_BPM r = bpm b.
Proof.
  intros Ha Hb Hne; unfold simulateMixSession; rewrite Ha, Hb.
  unfold bind at 1, getCrossfadeDuration; cbv zeta.
  change (Rltb (bpm a * 0.03) (Rabs (bpm a - bpm b))
          && Rltb (Rabs (bpm a - bpm b)) (bpm a * 0.25)) with (tempoTest a b).
  set (mixPoint := duration (buffer cur) - pm_crossfadeDuration w).
  set (b' := if tempoTest a b
             then {| bpm := bpm a; beats := beats b |} else b).
  unfold bind at 1.
  destruct (offset_returns a b' mixPoint w) as (offset & Hoff);
    [intros H; contradiction |].
  destruct (calculateBeatAlignedStartOffset (Some a) (Some b') mixPoint w)
    as [c w1]; cbn [fst] in Hoff; subst c.
  destruct (debugLog_run LogSimulation w1) as (w2 & Hlog & _).
  destruct (beats a) as [[| first rest] |]; [congruence | |];
    unfold bind, liftC, ret, reduce; rewrite Hlog;
    eexists; (split; [reflexivity |]); repeat split.
Qed.

(** The three tempo pairs of the specification against the window. *)
Lemma tempo_window_examples :
  (isResamplingNeeded_spec 120 123.5 -> False)
  /\ isResamplingNeeded_spec 120 128
  /\ (isResamplingNeeded_spec 120 155 -> False).
Proof.
  unfold isResamplingNeeded_spec; repeat split; try solve_R;
    intros [H1 H2]; revert H1 H2; solve_R.
Qed.

(** C7: on an idle engine [startAutoMix] asks for the offline render
    exactly when the tempo difference is above 3 % and below 25 % of the
    outgoing tempo, [simulateMixSession] reports [resamplingNeeded]
    exactly then, and the window excludes 120/123.5, includes 120/128
    and excludes 120/155. *)
Theorem C7_resampling_window :
  (forall (w : World) (cur next : Track) (pos : R) (a b : Analysis),
      isMixing (engine w) = false ->
      analysis cur = Some a -> analysis next = Some b ->
      (exists f w',
          startAutoMix_enter cur next pos w = (Normal (Await f), w')
          /\ renders w' = renders w ++ [fr_request f])
      <-> isResamplingNeeded_spec (bpm a) (bpm b))
  /\ (forall (w : World) (cur next : Track) (a b : Analysis),
         analysis cur = Some a -> analysis next = Some b ->
         beats a <> Some [] ->
         exists r,
           fst (simulateMixSession (Some cur) (Some next) w)
           = Normal (SimReport r)
           /\ (resamplingNeeded r = true
               <-> isResamplingNeeded_spec (bpm a) (bpm b)))
  /\ ((isResamplingNeeded_spec 120 123.5 -> False)
      /\ isResamplingNeeded_spec 120 128
      /\ (isResamplingNeeded_spec 120 155 -> False)).
Proof.
  split; [| split].
  - intros w cur next pos a b Hidle Ha Hb.
    rewrite <- tempoTest_spec; split.
    + intros (f & w' & Hrun & _).
      destruct (tempoTest a b) eqn:Htest; [reflexivity |].
      rewrite (startAutoMix_enter_direct cur next pos a b w Hidle Ha Hb Htest)
        in Hrun.
      cbv zeta in Hrun.
      destruct (fst (startAutoMix_schedule _ _ _ _ _ _ _)); discriminate.
    + intros Htest.
      destruct (startAutoMix_enter_await cur next pos a b w Hidle Ha Hb Htest)
        as (w' & Hrun & _ & _ & _ & _ & _ & _ & Hr & _).
      eexists; exists w'; split; [exact Hrun | exact Hr].
  - intros w cur next a b Ha Hb Hne.
    destruct (simulateMixSession_report cur next a b w Ha Hb Hne)
      as (r & Hrun & Hneeded & _).
    exists r; split; [exact Hrun |].
    rewrite Hneeded; apply tempoTest_spec.
  - exact tempo_window_examples.
Qed.

Lemma C7_resampling_window_witness :
  exists f w',
    startAutoMix_enter
      (exampleTrack 120 (Some [10; 10.5; 11]))
      (exampleTrack 128 (Some [0.05; 0.6; 1.2])) 0 (newWorld 8 0 false)
    = (Normal (Await f), w')
    /\ renders w' = renders (newWorld 8 0 false) ++ [fr_request f].
Proof.
  apply (proj1 C7_resampling_window (newWorld 8 0 false)
           (exampleTrack 120 (Some [10; 10.5; 11]))
           (exampleTrack 128 (Some [0.05; 0.6; 1.2])) 0
           {| bpm := 120; beats := Some [10; 10.5; 11] |}
           {| bpm := 128; beats := Some [0.05; 0.6; 1.2] |}
           eq_refl eq_refl eq_refl).
  exact (proj1 (proj2 (proj2 (proj2 C7_resampling_window)))).
Defined.

(** *** A render that rejects *)

Lemma startAutoMix_enter_await_console
  (cur next : Track) (pos : R) (a b : Analysis) (w : World) :
  isMixing (engine w) = false ->
  analysis cur = Some a -> analysis next = Some b ->
  tempoTest a b = true ->
  console (snd (startAutoMix_enter cur next pos w))
  = console w
    ++ (if debugMode (engine w)
        then [LogStarting; LogResampling (bpm b) (bpm a);
              LogOfflineRender (bpm a / bpm b)]
        else []).
Proof.
  intros Hidle Ha Hb Htest; unfold startAutoMix_enter, tempoTest in *.
  rewrite Ha, Hb.
  destruct w as [[mixing dbg sA sB gA gB] cf t anime n cs rs con ts].
  simpl in Hidle; subst mixing.
  destruct dbg; run_page; rewrite Htest; run_page;
    repeat rewrite <- app_assoc; simpl; rewrite ?app_nil_r; reflexivity.
Qed.

(** The rejection of the awaited render leaves [startAutoMix] by line
    61: the call rejects with the same error, the flag stays set, and
    nothing is allocated, scheduled or logged after the request. *)
Lemma startAutoMix_render_rejected
  (render : OfflineRequest -> Completion AudioBuffer)
  (cur next : Track) (pos : R) (a b : Analysis) (e : Error) (w : World) :
  isMixing (engine w) = false ->
  analysis cur = Some a -> analysis next = Some b ->
  tempoTest a b = true ->
  render (requestFor (buffer next) a b) = Throw e ->
  let r := startAutoMix render cur next pos w in
  fst r = Throw e
  /\ engine (snd r) = set_isMixing true (engine w)
  /\ calls (snd r) = calls w
  /\ timers (snd r) = timers w
  /\ console (snd r)
     = console w
       ++ (if debugMode (engine w)
           then [LogStarting; LogResampling (bpm b) (bpm a);
                 LogOfflineRender (bpm a / bpm b)]
           else []).
Proof.
  intros Hidle Ha Hb Htest Hfail r; subst r.
  pose proof (startAutoMix_enter_await_console cur next pos a b w
                Hidle Ha Hb Htest) as Hcon.
  rewrite startAutoMix_unfold.
  destruct (startAutoMix_enter_await cur next pos a b w Hidle Ha Hb Htest)
    as (w' & Hrun & He & _ & _ & _ & _ & Hc & _ & Ht).
  rewrite Hrun in *; cbn [fr_request]; rewrite Hfail.
  unfold startAutoMix_resume, bind, liftC; simpl in *.
  repeat split; assumption.
Qed.

(** C3 (the code departs from the specification): a rejected render is not
    caught.  Resumed with a rejection, [startAutoMix] rejects with the
    same error and touches nothing; on two tracks at 120 and 128 BPM
    with debug mode on, the call rejects, the flag stays set, no node is
    created, nothing is scheduled and the console holds no warning. *)
Theorem C3_resampling_failure_rejects :
  (forall (f : Frame) (e : Error) (w : World),
      startAutoMix_resume f (Throw e) w = (Throw e, w))
  /\ (let r :=
        startAutoMix failingRender
          (exampleTrack 120 (Some [10; 10.5; 11]))
          (exampleTrack 128 (Some [0.05; 0.6; 1.2])) 0 debugWorld in
      fst r = Throw (DOMException "rendering failed")
      /\ isMixing (engine (snd r)) = true
      /\ calls (snd r) = []
      /\ timers (snd r) = []
      /\ console (snd r)
         = [LogDebugMode true; LogStarting; LogResampling 128 120;
            LogOfflineRender (120 / 128)]).
Proof.
  split; [reflexivity |].
  assert (Htest : tempoTest {| bpm := 120; beats := Some [10; 10.5; 11] |}
                    {| bpm := 128; beats := Some [0.05; 0.6; 1.2] |} = true).
  { apply tempoTest_spec; exact (proj1 (proj2 tempo_window_examples)). }
  pose proof (startAutoMix_render_rejected failingRender
                (exampleTrack 120 (Some [10; 10.5; 11]))
                (exampleTrack 128 (Some [0.05; 0.6; 1.2])) 0
                _ _ (DOMException "rendering failed") debugWorld
                eq_refl eq_refl eq_refl Htest eq_refl) as H.
  cbv zeta in *; destruct H as (Hr & He & Hc & Ht & Hcon).
  rewrite Hr, He, Hc, Ht, Hcon; repeat split.
Qed.

(** *** A call that rejects *)

(** Two rejections, as tasks of a new page: the
    awaited render rejects; the outgoing beat array is empty. *)
Lemma rejected_by_render (crossfade now : R) (anime : bool) :
  exists p q,
    step (newPage crossfade now anime) Pending p
    /\ step p (Rejected (DOMException "rendering failed")) q.
Proof.
  set (cur := exampleTrack 120 (Some [10; 10.5; 11])).
  set (next := exampleTrack 128 (Some [0.05; 0.6; 1.2])).
  assert (Htest : tempoTest {| bpm := 120; beats := Some [10; 10.5; 11] |}
                    {| bpm := 128; beats := Some [0.05; 0.6; 1.2] |} = true)
    by (apply tempoTest_spec; exact (proj1 (proj2 tempo_window_examples))).
  destruct (startAutoMix_enter_await cur next 0 _ _
              (world (newPage crossfade now anime)) eq_refl eq_refl eq_refl Htest)
    as (w' & Hrun & _).
  match type of Hrun with
  | _ = (Normal (Await ?frame), _) => set (f := frame) in Hrun
  end.
  exists {| world := w'; suspended := [f] |}, {| world := w'; suspended := [] |}.
  split.
  - exact (step_call_await (newPage crossfade now anime) cur next 0 f w' Hrun).
  - exact (step_resume_throw {| world := w'; suspended := [f] |} [] f []
             (failingRender (fr_request f))
             (DOMException "rendering failed") w' eq_refl eq_refl).
Qed.

Lemma rejected_by_empty_beats (crossfade now : R) (anime : bool) :
  step (newPage crossfade now anime)
    (Rejected (TypeError "Reduce of empty array with no initial value"))
    {| world :=
         snd (startAutoMix_enter (exampleTrack 120 (Some []))
                (exampleTrack 120 (Some [0.5])) 0
                (newWorld crossfade now anime));
       suspended := [] |}.
Proof.
  set (cur := exampleTrack 120 (Some [])).
  set (next := exampleTrack 120 (Some [0.5])).
  assert (Htest : tempoTest {| bpm := 120; beats := Some [] |}
                    {| bpm := 120; beats := Some [0.5] |} = false).
  { unfold tempoTest; simpl bpm; decide_R; reflexivity. }
  pose proof (startAutoMix_enter_direct cur next 0 _ _
                (newWorld crossfade now anime)
                eq_refl eq_refl eq_refl Htest) as Hrun.
  cbv zeta in Hrun.
  match type of Hrun with
  | context [startAutoMix_schedule ?c ?n ?p ?d ?m ?bf ?w0] =>
      pose proof (startAutoMix_schedule_run c n p d m bf w0) as Hs
  end.
  cbv zeta in Hs; destruct Hs as (Hs & _); rewrite Hs in Hrun.
  rewrite Hrun; cbn [snd].
  eapply (step_call_throw (newPage crossfade now anime)); exact Hrun.
Qed.

(** C9: once a task of [startAutoMix] has rejected, on any page reached
    from a new engine, the flag is set and stays set on every page
    reached afterwards, no timer and no parked call is left to clear it,
    and every later call returns [false]; a rejected render and an empty
    outgoing beat array are two ways to get there. *)
Theorem C9_rejected_call_sticks :
  (forall (crossfade now : R) (anime : bool) (p q r : Page) (e : Error),
      reaches (newPage crossfade now anime) p ->
      step p (Rejected e) q ->
      reaches q r ->
      isMixing (engine (world r)) = true
      /\ timers (world r) = []
      /\ suspended r = []
      /\ forall (cur next : Track) (pos : R),
           exists w',
             startAutoMix_enter cur next pos (world r)
             = (Normal (Done false), w'))
  /\ (forall (crossfade now : R) (anime : bool),
         exists p q,
           step (newPage crossfade now anime) Pending p
           /\ step p (Rejected (DOMException "rendering failed")) q)
  /\ (forall (crossfade now : R) (anime : bool),
         exists q,
           step (newPage crossfade now anime)
             (Rejected (TypeError "Reduce of empty array with no initial value"))
             q).
Proof.
  split; [| split; [exact rejected_by_render |]].
  2: { intros crossfade now anime; eexists;
       exact (rejected_by_empty_beats crossfade now anime). }
  intros crossfade now anime p q r e Hp Hstep Hr.
  pose proof (reaches_consistent _ _ (newPage_consistent crossfade now anime) Hp)
    as Hcons.
  destruct (step_consistent p q (Rejected e) Hcons Hstep) as (_ & Hstuck).
  specialize (Hstuck e eq_refl).
  destruct (reaches_stuck q r Hstuck Hr) as [Hbusy Hnone].
  unfold sessions in Hnone.
  repeat split.
  - exact Hbusy.
  - destruct (timers (world r)); [reflexivity | simpl in Hnone; lia].
  - destruct (suspended r); [reflexivity | simpl in Hnone; lia].
  - intros cur next pos.
    destruct (startAutoMix_enter_busy cur next pos (world r) Hbusy)
      as (w' & Hrun & _).
    exists w'; exact Hrun.
Qed.

Lemma C9_rejected_call_sticks_witness :
  let q :=
    {| world :=
         snd (startAutoMix_enter (exampleTrack 120 (Some []))
                (exampleTrack 120 (Some [0.5])) 0 (newWorld 8 0 false));
       suspended := [] |} in
  isMixing (engine (world q)) = true
  /\ timers (world q) = []
  /\ suspended q = []
  /\ exists w',
       startAutoMix_enter (exampleTrack 120 (Some [10; 10.5; 11]))
         (exampleTrack 120 (Some [0.5])) 0 (world q)
       = (Normal (Done false), w').
Proof.
  intros q.
  destruct (proj1 C9_rejected_call_sticks 8 0 false (newPage 8 0 false) q q
              (TypeError "Reduce of empty array with no initial value")
              (reaches_refl _) (rejected_by_empty_beats 8 0 false)
              (reaches_refl _))
    as (Hbusy & Htimers & Hsusp & Hcalls).
  repeat split; try assumption.
  apply Hcalls.
Defined.

Lemma C8_beat_alignment_witness :
  exists anchor,
    closestBeat [10; 10.5; 11] 10.4 = Normal anchor
    /\ nearest_first 10.4 [10; 10.5; 11] anchor
    /\ fst (calculateBeatAlignedStartOffset
              (Some {| bpm := 120; beats := Some [10; 10.5; 11] |})
              (Some {| bpm := 128; beats := Some [0.05; 0.6; 1.2] |})
              10.4 (newWorld 8 0 false))
       = Normal (firstIncoming [0.05; 0.6; 1.2])
    /\ first_usable [0.05; 0.6; 1.2] (firstIncoming [0.05; 0.6; 1.2]).
Proof.
  destruct (proj1 C8_beat_alignment (newWorld 8 0 false)
              {| bpm := 120; beats := Some [10; 10.5; 11] |}
              {| bpm := 128; beats := Some [0.05; 0.6; 1.2] |}
              [10; 10.5; 11] [0.05; 0.6; 1.2] 10.4 eq_refl eq_refl)
    as (anchor & Hc & Hnear & Hv & Hu & _); try discriminate.
  exists anchor; repeat split; assumption.
Defined.

(** ** Further properties *)

(** A curve requested from a lower to a higher value has [numPoints]
    samples, starts at [startValue], ends at [endValue] and never goes
    down. *)
Theorem fade_in_curve_shape :
  forall (startValue endValue : R) (numPoints : nat),
    (2 <= numPoints)%nat -> startValue < endValue ->
    let curve := Curve.createSCurveFade startValue endValue numPoints in
    List.length curve = numPoints
    /\ nth 0 curve 0 = startValue
    /\ nth (numPoints - 1) curve 0 = endValue
    /\ non_decreasing curve.
Proof.
  intros startValue endValue numPoints Hn Hlt curve; subst curve.
  rewrite !nth_createSCurveFade by lia.
  repeat split.
  - apply length_createSCurveFade.
  - now apply sample_first_rising.
  - now apply sample_last_rising.
  - now apply createSCurveFade_non_decreasing.
Qed.

Lemma fade_in_curve_shape_witness :
  let curve := Curve.createSCurveFade 0.0001 1 CURVE_RESOLUTION in
  List.length curve = CURVE_RESOLUTION
  /\ nth 0 curve 0 = 0.0001
  /\ nth (CURVE_RESOLUTION - 1) curve 0 = 1
  /\ non_decreasing curve.
Proof.
  apply (fade_in_curve_shape 0.0001 1 CURVE_RESOLUTION);
    [exact resolution_two_points | lra].
Defined.

(** The offset does not depend on the page it is computed on. *)
Lemma offset_value_independent
  (analysisA analysisB : option Analysis) (mixPoint : R) (w w' : World) :
  fst (calculateBeatAlignedStartOffset analysisA analysisB mixPoint w)
  = fst (calculateBeatAlignedStartOffset analysisA analysisB mixPoint w').
Proof.
  assert (Hwarn : forall w0, fst ((debugLog WarnNoBeatData ;; ret 0) w0) = Normal 0).
  { intros w0; unfold bind;
      destruct (debugLog_run WarnNoBeatData w0) as (w1 & -> & _); reflexivity. }
  unfold calculateBeatAlignedStartOffset.
  destruct analysisA as [a |], analysisB as [b |]; rewrite ?Hwarn; try reflexivity.
  destruct (beats a) as [outgoing |], (beats b) as [incoming |];
    rewrite ?Hwarn; try reflexivity.
  unfold bind, liftC.
  destruct (closestBeat outgoing mixPoint) as [anchor | e]; [| reflexivity].
  destruct (debugLog_run (LogAligning anchor (firstIncoming incoming)) w)
    as (w1 & -> & _).
  destruct (debugLog_run (LogAligning anchor (firstIncoming incoming)) w')
    as (w2 & -> & _).
  reflexivity.
Qed.

(** Line 71 not taken: the session is armed. *)
Lemma startAutoMix_schedule_ahead
  (cur next : Track) (pos crossfade mixPoint offset : R) (bufferB : AudioBuffer)
  (w : World) :
  fst (calculateBeatAlignedStartOffset (analysis cur) (analysis next) mixPoint w)
  = Normal offset ->
  0 < mixPoint - pos ->
  let now := ctx_currentTime w in
  let mixStartTime := now + (mixPoint - pos) in
  exists w',
    startAutoMix_schedule cur next pos crossfade mixPoint bufferB w
    = (Normal true, w')
    /\ engine w'
       = set_gainNodeB (S (S (S (nextNode w))))
           (set_gainNodeA (S (S (nextNode w)))
              (set_sourceNodeB (S (nextNode w))
                 (set_sourceNodeA (nextNode w) (engine w))))
    /\ timers w' = timers w ++ [(mixStartTime - now + crossfade) * 1000]
    /\ calls w'
       = calls w
         ++ armedCalls (nextNode w) (buffer cur) bufferB
              mixStartTime crossfade offset
         ++ (if animeDefined w
             then [Anime (if Rltb 0 ((mixStartTime - now) * 1000)
                          then (mixStartTime - now) * 1000 else 0)
                         (crossfade * 1000)]
             else []).
Proof.
  intros Hoff Hahead now mixStartTime; subst now mixStartTime.
  pose proof (startAutoMix_schedule_run cur next pos crossfade mixPoint bufferB w)
    as H; cbv zeta in H.
  rewrite Hoff, Rleb_false in H by lra.
  destruct (startAutoMix_schedule cur next pos crossfade mixPoint bufferB w)
    as [c w']; cbn [fst snd] in H.
  destruct H as (-> & He & _ & Ht & _ & Hc).
  exists w'; repeat split; assumption.
Qed.



(** *** The curve *)



(** Reversing the abscissa mirrors the raised cosine. *)
Lemma shape_mirror (x : R) :
  0.5 * (1 - cos ((1 - x) * PI)) = 1 - 0.5 * (1 - cos (x * PI)).
Proof.
  replace ((1 - x) * PI) with (PI - x * PI) by lra.
  rewrite Rtrigo_facts.cos_pi_minus; lra.
Qed.

Lemma sample_swap (startValue endValue : R) (numPoints i : nat) :
  Curve.sample startValue endValue numPoints i
  = Curve.sample endValue startValue numPoints i.
Proof.
  unfold Curve.sample; cbv zeta.
  set (x := INR i / (INR numPoints - 1)).
  destruct (Rlt_dec startValue endValue) as [Hup | Hnot].
  - rewrite (Rltb_true _ _ Hup), (Rltb_false endValue startValue) by lra.
    rewrite shape_mirror; lra.
  - rewrite (Rltb_false startValue endValue) by lra.
    destruct (Rlt_dec endValue startValue) as [Hdown | Heq].
    + rewrite (Rltb_true _ _ Hdown), shape_mirror; lra.
    + rewrite (Rltb_false endValue startValue) by lra.
      assert (startValue = endValue) by lra; subst; reflexivity.
Qed.



(** Exchanging the two bounds does not change the curve: the reversal
    [1 - x] of line 136 and the sign of [endValue - startValue] cancel.
    The curve given to the outgoing gain at line 94 is, sample by
    sample, the curve given to the incoming gain at line 97. *)
Theorem curve_unchanged_by_swapping_bounds :
  (forall (startValue endValue : R) (numPoints : nat),
      Curve.createSCurveFade startValue endValue numPoints
      = Curve.createSCurveFade endValue startValue numPoints)
  /\ createSCurveFade_call 1 0.0001 CURVE_RESOLUTION [JsString "out"]
     = createSCurveFade_call 0.0001 1 CURVE_RESOLUTION [JsString "in"].
Proof.
  assert (H : forall s e n,
             Curve.createSCurveFade s e n = Curve.createSCurveFade e s n).
  { intros s e n; unfold Curve.createSCurveFade.
    apply map_ext; intros i; apply sample_swap. }
  split; [exact H | unfold createSCurveFade_call; apply H].
Qed.

(** *** The offline render *)


(** Inside the window of line 59 both tempi are positive and the ratio
    stays strictly between 0.8 and 4/3. *)
Lemma tempoTest_ratio (a b : Analysis) :
  tempoTest a b = true ->
  0 < bpm a /\ 0 < bpm b /\ 0.8 < bpm a / bpm b < 4 / 3.
Proof.
  intros Htest; apply tempoTest_spec in Htest; destruct Htest as [Hlo Hhi].
  assert (Ha : 0 < bpm a) by lra.
  assert (Hb : 0 < bpm b).
  { unfold Rabs in Hhi; destruct (Rcase_abs (bpm a - bpm b)); lra. }
  repeat split; try assumption.
  - apply Rmult_lt_reg_r with (bpm b); [exact Hb |].
    unfold Rdiv; rewrite Rmult_assoc, Rinv_l by lra.
    unfold Rabs in Hhi; destruct (Rcase_abs (bpm a - bpm b)); lra.
  - apply Rmult_lt_reg_r with (bpm b); [exact Hb |].
    unfold Rdiv at 1; rewrite Rmult_assoc, Rinv_l by lra.
    unfold Rabs in Hhi; destruct (Rcase_abs (bpm a - bpm b)); lra.
Qed.

(** Whatever parks [startAutoMix] at the [await] was started on an idle
    engine, with both analyses present and the tempo test passed. *)
Lemma startAutoMix_enter_await_inv
  (cur next : Track) (pos : R) (f : Frame) (w w' : World) :
  startAutoMix_enter cur next pos w = (Normal (Await f), w') ->
  isMixing (engine w) = false
  /\ exists a b,
       analysis cur = Some a /\ analysis next = Some b
       /\ tempoTest a b = true
       /\ f = {| fr_currentTrack := cur;
                 fr_nextTrack := next;
                 fr_currentPosition := pos;
                 fr_crossfadeDuration := pm_crossfadeDuration w;
                 fr_mixPoint := duration (buffer cur) - pm_crossfadeDuration w;
                 fr_request := requestFor (buffer next) a b |}
       /\ engine w' = set_isMixing true (engine w)
       /\ pm_crossfadeDuration w' = pm_crossfadeDuration w
       /\ ctx_currentTime w' = ctx_currentTime w
       /\ animeDefined w' = animeDefined w
       /\ nextNode w' = nextNode w
       /\ calls w' = calls w
       /\ renders w' = renders w ++ [requestFor (buffer next) a b]
       /\ timers w' = timers w.
Proof.
  intros Hrun.
  destruct (isMixing (engine w)) eqn:Hflag.
  { destruct (startAutoMix_enter_busy cur next pos w Hflag) as (w0 & H0 & _).
    rewrite H0 in Hrun; discriminate. }
  split; [reflexivity |].
  destruct (analysis cur) as [a |] eqn:Ha.
  2: { destruct (startAutoMix_enter_no_analysis cur next pos w Hflag)
         as (e & H0); [now left | rewrite H0 in Hrun; discriminate]. }
  destruct (analysis next) as [b |] eqn:Hb.
  2: { destruct (startAutoMix_enter_no_analysis cur next pos w Hflag)
         as (e & H0); [now right | rewrite H0 in Hrun; discriminate]. }
  destruct (tempoTest a b) eqn:Htest.
  - destruct (startAutoMix_enter_await cur next pos a b w Hflag Ha Hb Htest)
      as (w0 & H0 & Hrest).
    rewrite H0 in Hrun; injection Hrun as <- <-.
    exists a, b; split; [reflexivity | split; [reflexivity |]].
    split; [exact Htest | split; [reflexivity | exact Hrest]].
  - rewrite (startAutoMix_enter_direct cur next pos a b w Hflag Ha Hb Htest)
      in Hrun.
    cbv zeta in Hrun.
    destruct (fst (startAutoMix_schedule _ _ _ _ _ _ _)); discriminate.
Qed.



(** Every offline render that [startAutoMix] asks for is for the
    incoming buffer, with both tempi positive and a playback rate
    strictly between 0.8 and 4/3: the division of line 173 is never by
    zero and the incoming track is never sped up or slowed down by more
    than a third. *)
Theorem render_request_rate_bounded :
  forall (cur next : Track) (pos : R) (f : Frame) (w w' : World),
    startAutoMix_enter cur next pos w = (Normal (Await f), w') ->
    exists a b,
      analysis cur = Some a /\ analysis next = Some b
      /\ 0 < bpm a /\ 0 < bpm b
      /\ req_source (fr_request f) = buffer next
      /\ req_playbackRate (fr_request f) = bpm a / bpm b
      /\ 0.8 < req_playbackRate (fr_request f) < 4 / 3
      /\ renders w' = renders w ++ [fr_request f].
Proof.
  intros cur next pos f w w' Hrun.
  destruct (startAutoMix_enter_await_inv cur next pos f w w' Hrun)
    as (_ & a & b & Ha & Hb & Htest & -> & _ & _ & _ & _ & _ & _ & Hr & _).
  destruct (tempoTest_ratio a b Htest) as (Hpa & Hpb & Hlo & Hhi).
  exists a, b; cbn [fr_request requestFor req_source req_playbackRate].
  repeat split; assumption.
Qed.

Lemma render_request_rate_bounded_witness :
  exists a b,
    analysis (exampleTrack 120 (Some [10; 10.5; 11])) = Some a
    /\ analysis (exampleTrack 128 (Some [0.05; 0.6; 1.2])) = Some b
    /\ 0 < bpm a /\ 0 < bpm b
    /\ 0.8 < bpm a / bpm b < 4 / 3.
Proof.
  assert (Htest : tempoTest {| bpm := 120; beats := Some [10; 10.5; 11] |}
                    {| bpm := 128; beats := Some [0.05; 0.6; 1.2] |} = true)
    by (apply tempoTest_spec; exact (proj1 (proj2 tempo_window_examples))).
  destruct (startAutoMix_enter_await
              (exampleTrack 120 (Some [10; 10.5; 11]))
              (exampleTrack 128 (Some [0.05; 0.6; 1.2])) 0 _ _
              (newWorld 8 0 false) eq_refl eq_refl eq_refl Htest)
    as (w' & Hrun & _).
  destruct (render_request_rate_bounded _ _ _ _ _ _ Hrun)
    as (a & b & Ha & Hb & Hpa & Hpb & _ & Hrate & Hbounds & _).
  exists a, b; rewrite <- Hrate; repeat split; assumption || apply Hbounds.
Defined.

(** *** The animation hand-off *)

(** [syncCrossfadeAnimation] does nothing when [anime] is not loaded;
    otherwise it makes one [anime] call, whose delay is the time left
    to the start, in milliseconds, and never negative.  It never
    touches the engine, the timers or the audio nodes. *)
Theorem syncCrossfadeAnimation_effect :
  forall (startTime dur : R) (w : World),
    let r := syncCrossfadeAnimation startTime dur w in
    fst r = Normal tt
    /\ engine (snd r) = engine w
    /\ timers (snd r) = timers w
    /\ renders (snd r) = renders w
    /\ nextNode (snd r) = nextNode w
    /\ calls (snd r)
       = calls w
         ++ (if animeDefined w
             then [Anime (Rmax 0 ((startTime - ctx_currentTime w) * 1000))
                         (dur * 1000)]
             else [])
    /\ 0 <= Rmax 0 ((startTime - ctx_currentTime w) * 1000).
Proof.
  intros startTime dur w r; subst r.
  assert (Hmax : forall x, (if Rltb 0 x then x else 0) = Rmax 0 x).
  { intros x; unfold Rltb, Rmax.
    destruct (Rlt_dec 0 x), (Rle_dec 0 x); lra. }
  destruct w as [[mixing dbg sA sB gA gB] cf t anime n cs rs con ts].
  unfold syncCrossfadeAnimation.
  destruct anime, dbg; run_page; rewrite ?Hmax, ?app_nil_r;
    repeat split; apply Rmax_l.
Qed.

(** *** More on the beat alignment *)

(** The offset is decided by the incoming beat array alone. *)
Lemma offset_value (a b : Analysis) (outgoing : list R) (mixPoint : R)
  (w : World) :
  beats a = Some outgoing -> outgoing <> [] ->
  fst (calculateBeatAlignedStartOffset (Some a) (Some b) mixPoint w)
  = Normal match beats b with
           | Some incoming => firstIncoming incoming
           | None => 0
           end.
Proof.
  intros Ha Hne.
  destruct (beats b) as [incoming |] eqn:Hb.
  - pose proof (offset_with_beats a b outgoing incoming mixPoint w Ha Hb) as H.
    destruct (closestBeat_nearest_first outgoing mixPoint Hne) as (anchor & Hc & _).
    rewrite Hc in H; exact (proj1 H).
  - apply offset_without_beat_data.
    right; right; right; exists b; now split.
Qed.

(** The anchor found in the outgoing track is logged and then dropped:
    with any two non-empty outgoing beat arrays, any two tempi and any
    two mix points, the same incoming analysis gives the same offset. *)
Theorem offset_ignores_outgoing_grid :
  forall (w : World) (a a' b : Analysis) (outgoing outgoing' : list R)
         (mixPoint mixPoint' : R),
    beats a = Some outgoing -> beats a' = Some outgoing' ->
    outgoing <> [] -> outgoing' <> [] ->
    fst (calculateBeatAlignedStartOffset (Some a) (Some b) mixPoint w)
    = fst (calculateBeatAlignedStartOffset (Some a') (Some b) mixPoint' w).
Proof.
  intros w a a' b outgoing outgoing' mixPoint mixPoint' Ha Ha' Hne Hne'.
  rewrite (offset_value a b outgoing mixPoint w Ha Hne),
    (offset_value a' b outgoing' mixPoint' w Ha' Hne').
  reflexivity.
Qed.

Lemma offset_ignores_outgoing_grid_witness :
  fst (calculateBeatAlignedStartOffset
         (Some {| bpm := 120; beats := Some [10; 10.5; 11] |})
         (Some {| bpm := 128; beats := Some [0.05; 0.6; 1.2] |})
         10.4 (newWorld 8 0 false))
  = fst (calculateBeatAlignedStartOffset
           (Some {| bpm := 90; beats := Some [3] |})
           (Some {| bpm := 128; beats := Some [0.05; 0.6; 1.2] |})
           150 (newWorld 8 0 false)).
Proof.
  apply (offset_ignores_outgoing_grid (newWorld 8 0 false)
           {| bpm := 120; beats := Some [10; 10.5; 11] |}
           {| bpm := 90; beats := Some [3] |}
           {| bpm := 128; beats := Some [0.05; 0.6; 1.2] |}
           [10; 10.5; 11] [3] 10.4 150 eq_refl eq_refl);
    discriminate.
Defined.

Lemma firstIncoming_member (incomingBeats : list R) :
  incomingBeats <> [] -> In (firstIncoming incomingBeats) incomingBeats.
Proof.
  intros Hne.
  destruct (firstIncoming_first_usable incomingBeats Hne)
    as [(before & after & Heq & _) | (_ & Hhd)].
  - rewrite Heq at 2; apply in_or_app; right; now left.
  - destruct incomingBeats as [| first rest]; [discriminate |].
    injection Hhd as Hhd; rewrite <- Hhd; now left.
Qed.

(** In an ascending array, whatever follows an element is not below it. *)
Lemma ascending_after (before after : list R) (v x : R) :
  non_decreasing (before ++ v :: after) -> In x after -> v <= x.
Proof.
  intros Hasc Hx.
  destruct (In_nth after x 0 Hx) as (k & Hk & Hnth).
  specialize (Hasc (List.length before) (List.length before + S k)%nat).
  rewrite length_app in Hasc; cbn [List.length] in Hasc.
  rewrite !app_nth2 in Hasc by lia.
  replace (List.length before - List.length before)%nat with 0%nat in Hasc by lia.
  replace (List.length before + S k - List.length before)%nat with (S k) in Hasc
    by lia.
  cbn [nth] in Hasc; rewrite Hnth in Hasc.
  apply Hasc; lia.
Qed.

(** The offset is [0] or one of the incoming beats; on an ascending
    incoming array that has a beat above 0.1 s it is the smallest such
    beat. *)
Theorem offset_is_an_incoming_beat :
  forall (w : World) (a b : Analysis) (outgoing incoming : list R)
         (mixPoint : R),
    beats a = Some outgoing -> outgoing <> [] ->
    beats b = Some incoming ->
    exists offset,
      fst (calculateBeatAlignedStartOffset (Some a) (Some b) mixPoint w)
      = Normal offset
      /\ (incoming = [] -> offset = 0)
      /\ (incoming <> [] -> In offset incoming)
      /\ (non_decreasing incoming ->
          (exists x, In x incoming /\ 0.1 < x) ->
          0.1 < offset
          /\ forall x, In x incoming -> 0.1 < x -> offset <= x).
Proof.
  intros w a b outgoing incoming mixPoint Ha Hne Hb.
  exists (firstIncoming incoming).
  rewrite (offset_value a b outgoing mixPoint w Ha Hne), Hb.
  split; [reflexivity | split; [| split]].
  - intros ->; apply firstIncoming_nil.
  - apply firstIncoming_member.
  - intros Hasc (x0 & Hx0 & Hgt0).
    assert (Hin : incoming <> []) by (intros ->; destruct Hx0).
    destruct (firstIncoming_first_usable incoming Hin)
      as [(before & after & Heq & Hgt & Hbefore) | (Hall & _)].
    + split; [exact Hgt |].
      intros x Hx Hxgt; rewrite Heq in Hx, Hasc.
      apply in_app_or in Hx as [Hx | [<- | Hx]].
      * specialize (Hbefore x Hx); lra.
      * lra.
      * exact (ascending_after before after _ x Hasc Hx).
    + specialize (Hall x0 Hx0); lra.
Qed.

Lemma offset_is_an_incoming_beat_witness :
  exists offset,
    fst (calculateBeatAlignedStartOffset
           (Some {| bpm := 120; beats := Some [10; 10.5; 11] |})
           (Some {| bpm := 128; beats := Some [0.05; 0.6; 1.2] |})
           10.4 (newWorld 8 0 false))
    = Normal offset
    /\ In offset [0.05; 0.6; 1.2].
Proof.
  destruct (offset_is_an_incoming_beat (newWorld 8 0 false)
              {| bpm := 120; beats := Some [10; 10.5; 11] |}
              {| bpm := 128; beats := Some [0.05; 0.6; 1.2] |}
              [10; 10.5; 11] [0.05; 0.6; 1.2] 10.4 eq_refl)
    as (offset & Hv & _ & Hin & _); try discriminate; try reflexivity.
  exists offset; split; [exact Hv | apply Hin; discriminate].
Defined.

(** *** The simulation *)

(** Line 259 on a non-empty array names the beat that line 162 returns. *)
Lemma incomingBeat_firstIncoming (incomingBeats : list R) :
  incomingBeats <> [] ->
  js_or (find (fun b => Rltb 0.1 b) incomingBeats) (hd_error incomingBeats)
  = Some (firstIncoming incomingBeats).
Proof.
  destruct incomingBeats as [| first rest]; [congruence | intros _].
  rewrite firstIncoming_cons.
  destruct (find _ (first :: rest)) as [beat |] eqn:Hfind; [| reflexivity].
  apply find_first_above in Hfind as (_ & _ & _ & Hlt & _).
  unfold js_or, truthy; destruct (Req_dec_T beat 0); [lra | reflexivity].
Qed.

(** The report of [simulateMixSession], field by field. *)
Lemma simulateMixSession_run
  (cur next : Track) (a b : Analysis) (w : World) :
  analysis cur = Some a -> analysis next = Some b -> beats a <> Some [] ->
  let crossfade := pm_crossfadeDuration w in
  let mixPoint := duration (buffer cur) - crossfade in
  fst (simulateMixSession (Some cur) (Some next) w)
  = Normal
      (SimReport
         {| rep_mixPoint := mixPoint;
            rep_crossfadeDuration := crossfade;
            trackA_BPM := bpm a;
            trackB_BPM := bpm b;
            resamplingNeeded := tempoTest a b;
            resampledBPM := if tempoTest a b then Some (bpm a) else None;
            outgoingBeat :=
              match beats a with
              | Some (first :: rest) =>
                  Some (fold_left (closer mixPoint) rest first)
              | _ => None
              end;
            incomingBeat :=
              match beats b with
              | Some bs => js_or (find (fun x => Rltb 0.1 x) bs) (hd_error bs)
              | None => None
              end;
            finalOffset :=
              Some match beats a, beats b with
                   | Some _, Some incoming => firstIncoming incoming
                   | _, _ => 0
                   end |}).
Proof.
  intros Ha Hb Hne crossfade mixPoint; subst crossfade mixPoint.
  unfold simulateMixSession, calculateBeatAlignedStartOffset, closestBeat, reduce.
  rewrite Ha, Hb; cbv zeta.
  change (Rltb (bpm a * 0.03) (Rabs (bpm a - bpm b))
          && Rltb (Rabs (bpm a - bpm b)) (bpm a * 0.25)) with (tempoTest a b).
  destruct w as [[mixing dbg sA sB gA gB] cf t anime n cs rs con ts].
  destruct (tempoTest a b); cbn [beats bpm];
    destruct (beats a) as [[| first rest] |]; try congruence;
    destruct (beats b) as [incoming |];
    destruct dbg; run_page; reflexivity.
Qed.

(** With an empty outgoing beat array the simulation throws: at line
    256 when the incoming array is there, at line 258 otherwise. *)
Lemma simulateMixSession_empty_outgoing
  (cur next : Track) (a b : Analysis) (w : World) :
  analysis cur = Some a -> analysis next = Some b -> beats a = Some [] ->
  fst (simulateMixSession (Some cur) (Some next) w)
  = Throw (TypeError "Reduce of empty array with no initial value").
Proof.
  intros Ha Hb Hempty.
  unfold simulateMixSession, calculateBeatAlignedStartOffset, closestBeat, reduce.
  rewrite Ha, Hb; cbv zeta.
  change (Rltb (bpm a * 0.03) (Rabs (bpm a - bpm b))
          && Rltb (Rabs (bpm a - bpm b)) (bpm a * 0.25)) with (tempoTest a b).
  destruct w as [[mixing dbg sA sB gA gB] cf t anime n cs rs con ts].
  destruct (tempoTest a b); cbn [beats bpm]; rewrite Hempty;
    destruct (beats b) as [incoming |];
    destruct dbg; run_page; reflexivity.
Qed.

(** [simulateMixSession] is a dry run: whatever it is given and however
    it ends, the engine, the backend calls, the offline renders and the
    timers are left as they were; with a track or an analysis missing it
    returns the error value and writes nothing at all. *)
Theorem simulateMixSession_dry_run :
  (forall (cur next : option Track) (w : World),
      quiet w (snd (simulateMixSession cur next w)))
  /\ (forall (cur next : option Track) (w : World),
         cur = None \/ next = None
         \/ (exists t, cur = Some t /\ analysis t = None)
         \/ (exists t, next = Some t /\ analysis t = None) ->
         simulateMixSession cur next w
         = (Normal (SimError "Missing track data or analysis."), w)).
Proof.
  split; [exact simulateMixSession_quiet |].
  intros cur next w H; unfold simulateMixSession.
  destruct cur as [cur |], next as [next |]; try reflexivity.
  destruct (analysis cur) as [a |] eqn:Ha, (analysis next) as [b |] eqn:Hb;
    try reflexivity.
  destruct H as [H | [H | [(t & [= <-] & H) | (t & [= <-] & H)]]]; congruence.
Qed.

Lemma simulateMixSession_dry_run_witness :
  simulateMixSession None (Some (exampleTrack 120 None)) busyWorld
  = (Normal (SimError "Missing track data or analysis."), busyWorld).
Proof.
  apply (proj2 simulateMixSession_dry_run); now left.
Defined.

(** With both analyses present, [simulateMixSession] returns a report
    unless the outgoing beat array is empty, in which case it throws.
    The report names the nearest outgoing beat as anchor; with both beat
    arrays present and the incoming one non-empty its incoming beat is
    its final offset; without outgoing beats the final offset is [0]
    even when an incoming beat is reported; the tempo of the incoming
    track is reported as analysed, also when resampling is needed. *)
Theorem simulateMixSession_report_contents :
  forall (w : World) (cur next : Track) (a b : Analysis),
    analysis cur = Some a -> analysis next = Some b ->
    let mixPoint := duration (buffer cur) - pm_crossfadeDuration w in
    (beats a = Some [] ->
     fst (simulateMixSession (Some cur) (Some next) w)
     = Throw (TypeError "Reduce of empty array with no initial value"))
    /\ (beats a <> Some [] ->
        exists r,
          fst (simulateMixSession (Some cur) (Some next) w)
          = Normal (SimReport r)
          /\ rep_mixPoint r = mixPoint
          /\ rep_crossfadeDuration r = pm_crossfadeDuration w
          /\ trackA_BPM r = bpm a /\ trackB_BPM r = bpm b
          /\ resampledBPM r = (if resamplingNeeded r then Some (bpm a) else None)
          /\ (forall outgoing, beats a = Some outgoing ->
                exists anchor,
                  outgoingBeat r = Some anchor
                  /\ nearest_first mixPoint outgoing anchor)
          /\ (beats a = None -> outgoingBeat r = None /\ finalOffset r = Some 0)
          /\ (forall incoming, beats b = Some incoming -> incoming <> [] ->
                incomingBeat r = Some (firstIncoming incoming)
                /\ (beats a <> None -> finalOffset r = incomingBeat r))
          /\ (beats b = None \/ beats b = Some [] ->
                incomingBeat r = None /\ finalOffset r = Some 0)).
Proof.
  intros w cur next a b Ha Hb mixPoint; subst mixPoint; split.
  - exact (simulateMixSession_empty_outgoing cur next a b w Ha Hb).
  - intros Hne.
    pose proof (simulateMixSession_run cur next a b w Ha Hb Hne) as Hrun.
    cbv zeta in Hrun.
    eexists; split; [exact Hrun |].
    cbn [rep_mixPoint rep_crossfadeDuration trackA_BPM trackB_BPM
         resamplingNeeded resampledBPM outgoingBeat incomingBeat finalOffset].
    do 5 (split; [reflexivity |]).
    split; [| split; [| split]].
    + intros outgoing Hout; rewrite Hout.
      destruct (closestBeat_nearest_first outgoing
                  (duration (buffer cur) - pm_crossfadeDuration w))
        as (anchor & Hc & Hnear); [congruence |].
      destruct outgoing as [| first rest]; [congruence |].
      injection Hc as <-; eexists; split; [reflexivity | exact Hnear].
    + intros ->; split; reflexivity.
    + intros incoming Hinc Hin; rewrite Hinc; split.
      * now apply incomingBeat_firstIncoming.
      * intros Hsome; rewrite incomingBeat_firstIncoming by assumption.
        destruct (beats a); [reflexivity | congruence].
    + intros [-> | ->]; split; try reflexivity.
      * destruct (beats a); reflexivity.
      * rewrite firstIncoming_nil; destruct (beats a); reflexivity.
Qed.

Lemma simulateMixSession_report_contents_witness :
  exists r,
    fst (simulateMixSession
           (Some (exampleTrack 120 (Some [10; 10.5; 11])))
           (Some (exampleTrack 128 (Some [0.05; 0.6; 1.2])))
           (newWorld 8 0 false))
    = Normal (SimReport r)
    /\ rep_mixPoint r = 200 - 8
    /\ trackB_BPM r = 128.
Proof.
  pose proof (simulateMixSession_report_contents (newWorld 8 0 false)
                (exampleTrack 120 (Some [10; 10.5; 11]))
                (exampleTrack 128 (Some [0.05; 0.6; 1.2]))
                {| bpm := 120; beats := Some [10; 10.5; 11] |}
                {| bpm := 128; beats := Some [0.05; 0.6; 1.2] |}
                eq_refl eq_refl) as H.
  cbv zeta in H.
  destruct (proj2 H) as (r & Hrun & Hmix & _ & _ & Hb & _); [discriminate |].
  exists r; repeat split; assumption.
Defined.

(** *** More on the scheduler *)

(** Lines 64-122 never change what the engine reads from its
    collaborators. *)
Lemma startAutoMix_schedule_environment
  (cur next : Track) (pos crossfade mixPoint : R) (bufferB : AudioBuffer)
  (w : World) :
  let w' := snd (startAutoMix_schedule cur next pos crossfade mixPoint
                   bufferB w) in
  pm_crossfadeDuration w' = pm_crossfadeDuration w
  /\ ctx_currentTime w' = ctx_currentTime w
  /\ animeDefined w' = animeDefined w.
Proof.
  intros w'; unfold startAutoMix_schedule, bind in w'; subst w'.
  pose proof (calculateBeatAlignedStartOffset_quiet
                (analysis cur) (analysis next) mixPoint w) as Hq.
  destruct (calculateBeatAlignedStartOffset
              (analysis cur) (analysis next) mixPoint w)
    as [[startTimeB | e] w1]; cbn [fst snd] in *.
  2: { destruct Hq as (_ & Hcf & Hnow & Hanime & _); repeat split; assumption. }
  destruct Hq as (_ & Hcf & Hnow & Hanime & _).
  rewrite <- Hcf, <- Hnow, <- Hanime; clear Hcf Hnow Hanime.
  destruct w1 as [[mixing dbg sA sB gA gB] cf t anime n cs rs con ts].
  run_page.
  destruct (Rleb (t + (mixPoint - pos)) t).
  - destruct dbg; run_page; repeat split.
  - destruct dbg, anime; run_page; repeat split.
Qed.

(** What lines 64-122 did, read back from their result. *)
Lemma startAutoMix_schedule_inv
  (cur next : Track) (pos crossfade mixPoint : R) (bufferB : AudioBuffer)
  (c : Completion bool) (w w' : World) :
  startAutoMix_schedule cur next pos crossfade mixPoint bufferB w = (c, w') ->
  let now := ctx_currentTime w in
  let mixStartTime := now + (mixPoint - pos) in
  match c with
  | Normal true =>
      now < mixStartTime
      /\ exists offset,
           fst (calculateBeatAlignedStartOffset
                  (analysis cur) (analysis next) mixPoint w) = Normal offset
           /\ engine w'
              = set_gainNodeB (S (S (S (nextNode w))))
                  (set_gainNodeA (S (S (nextNode w)))
                     (set_sourceNodeB (S (nextNode w))
                        (set_sourceNodeA (nextNode w) (engine w))))
           /\ nextNode w' = S (S (S (S (nextNode w))))
           /\ timers w' = timers w ++ [(mixStartTime - now + crossfade) * 1000]
           /\ renders w' = renders w
           /\ calls w'
              = calls w
                ++ armedCalls (nextNode w) (buffer cur) bufferB
                     mixStartTime crossfade offset
                ++ (if animeDefined w
                    then [Anime (if Rltb 0 ((mixStartTime - now) * 1000)
                                 then (mixStartTime - now) * 1000 else 0)
                                (crossfade * 1000)]
                    else [])
  | Normal false =>
      mixStartTime <= now
      /\ engine w' = set_isMixing false (engine w)
      /\ nextNode w' = nextNode w /\ timers w' = timers w
      /\ renders w' = renders w /\ calls w' = calls w
  | Throw e =>
      fst (calculateBeatAlignedStartOffset
             (analysis cur) (analysis next) mixPoint w) = Throw e
      /\ quiet w w'
  end.
Proof.
  intros Hrun now mixStartTime; subst now mixStartTime.
  pose proof (startAutoMix_schedule_run cur next pos crossfade mixPoint bufferB w)
    as H; cbv zeta in H; rewrite Hrun in H; cbn [fst snd] in H.
  destruct (fst (calculateBeatAlignedStartOffset
                   (analysis cur) (analysis next) mixPoint w)) as [offset | e0].
  - unfold Rleb in H.
    destruct (Rle_dec (ctx_currentTime w + (mixPoint - pos)) (ctx_currentTime w))
      as [Hpast | Hahead].
    + destruct H as (-> & He & Hc & Ht & Hr & Hn).
      repeat split; assumption.
    + destruct H as (-> & He & Hn & Ht & Hr & Hc).
      split; [lra |].
      exists offset; repeat split; assumption.
  - destruct H as (-> & Hq); split; [reflexivity | exact Hq].
Qed.

(** The four ways through lines 40-62. *)
Lemma startAutoMix_enter_cases
  (cur next : Track) (pos : R) (c : Completion Enter) (w w' : World) :
  startAutoMix_enter cur next pos w = (c, w') ->
  (isMixing (engine w) = true /\ c = Normal (Done false) /\ quiet w w')
  \/ (isMixing (engine w) = false
      /\ (analysis cur = None \/ analysis next = None)
      /\ c = Throw (TypeError "Cannot read properties of undefined")
      /\ w' = armed w)
  \/ (isMixing (engine w) = false
      /\ exists a b,
           analysis cur = Some a /\ analysis next = Some b
           /\ tempoTest a b = true
           /\ c = Normal
                    (Await {| fr_currentTrack := cur;
                              fr_nextTrack := next;
                              fr_currentPosition := pos;
                              fr_crossfadeDuration := pm_crossfadeDuration w;
                              fr_mixPoint :=
                                duration (buffer cur) - pm_crossfadeDuration w;
                              fr_request := requestFor (buffer next) a b |})
           /\ engine w' = set_isMixing true (engine w)
           /\ pm_crossfadeDuration w' = pm_crossfadeDuration w
           /\ ctx_currentTime w' = ctx_currentTime w
           /\ animeDefined w' = animeDefined w
           /\ nextNode w' = nextNode w
           /\ calls w' = calls w
           /\ renders w' = renders w ++ [requestFor (buffer next) a b]
           /\ timers w' = timers w)
  \/ (isMixing (engine w) = false
      /\ exists a b c0,
           analysis cur = Some a /\ analysis next = Some b
           /\ tempoTest a b = false
           /\ startAutoMix_schedule cur next pos (pm_crossfadeDuration w)
                (duration (buffer cur) - pm_crossfadeDuration w)
                (buffer next) (armed w) = (c0, w')
           /\ c = match c0 with
                  | Normal result => Normal (Done result)
                  | Throw e => Throw e
                  end).
Proof.
  intros Hrun.
  destruct (isMixing (engine w)) eqn:Hflag.
  { left.
    destruct (startAutoMix_enter_busy cur next pos w Hflag) as (w0 & H0 & Hq & _).
    rewrite H0 in Hrun; injection Hrun as <- <-; repeat split; apply Hq. }
  right.
  assert (Hnone : analysis cur = None \/ analysis next = None ->
                  c = Throw (TypeError "Cannot read properties of undefined")
                  /\ w' = armed w).
  { intros Hn; revert Hrun; unfold startAutoMix_enter, armed.
    destruct w as [[mixing dbg sA sB gA gB] cf t anime n cs rs con ts].
    cbn [isMixing engine] in Hflag; subst mixing.
    destruct (analysis cur) as [a |], (analysis next) as [b |];
      try (destruct Hn; discriminate);
      destruct dbg; run_page; intros [= <- <-]; split; reflexivity. }
  destruct (analysis cur) as [a |] eqn:Ha.
  2: { left; destruct Hnone as [-> ->]; [now left |].
       repeat split; now left. }
  destruct (analysis next) as [b |] eqn:Hb.
  2: { left; destruct Hnone as [-> ->]; [now right |].
       repeat split; now right. }
  clear Hnone; right.
  destruct (tempoTest a b) eqn:Htest.
  - left; split; [reflexivity |].
    destruct (startAutoMix_enter_await cur next pos a b w Hflag Ha Hb Htest)
      as (w0 & H0 & Hrest).
    rewrite H0 in Hrun; injection Hrun as <- <-.
    exists a, b; split; [reflexivity | split; [reflexivity |]].
    split; [exact Htest | split; [reflexivity | exact Hrest]].
  - right; split; [reflexivity |].
    rewrite (startAutoMix_enter_direct cur next pos a b w Hflag Ha Hb Htest)
      in Hrun.
    cbv zeta in Hrun.
    destruct (startAutoMix_schedule cur next pos (pm_crossfadeDuration w)
                (duration (buffer cur) - pm_crossfadeDuration w)
                (buffer next) (armed w)) as [c0 w0] eqn:Hs.
    cbn [fst snd] in Hrun; injection Hrun as <- <-.
    exists a, b, c0; split; [reflexivity | split; [reflexivity |]].
    split; [exact Htest | split; reflexivity].
Qed.

(** *** What reaches the backend *)

Lemma startAutoMix_schedule_backend
  (cur next : Track) (pos crossfade mixPoint : R) (bufferB : AudioBuffer)
  (c : Completion bool) (w w' : World) :
  startAutoMix_schedule cur next pos crossfade mixPoint bufferB w = (c, w') ->
  match c with
  | Normal true => armed_block w w'
  | _ => backend_untouched w w'
  end.
Proof.
  intros Hrun.
  pose proof (startAutoMix_schedule_inv cur next pos crossfade mixPoint bufferB
                c w w' Hrun) as H; cbv zeta in H.
  destruct c as [[|] | e].
  - destruct H as (_ & offset & _ & _ & Hn & _ & _ & Hc).
    unfold armed_block.
    eexists _, _, _, _, _, _; split; [exact Hc | split; [| exact Hn]].
    intros c Hin; destruct (animeDefined w); [| destruct Hin].
    destruct Hin as [<- | []]; eexists _, _; reflexivity.
  - destruct H as (_ & _ & Hn & _ & _ & Hc); split; assumption.
  - destruct H as (_ & _ & _ & _ & _ & Hn & Hc & _); split; assumption.
Qed.

Lemma armed_block_from_armed (w w' : World) :
  armed_block (armed w) w' -> armed_block w w'.
Proof.
  pose proof (armed_fields w) as (_ & _ & _ & _ & Hn & Hc & _).
  unfold armed_block; rewrite Hn, Hc; trivial.
Qed.

Lemma backend_untouched_from_armed (w w' : World) :
  backend_untouched (armed w) w' -> backend_untouched w w'.
Proof.
  pose proof (armed_fields w) as (_ & _ & _ & _ & Hn & Hc & _).
  unfold backend_untouched; rewrite Hn, Hc; trivial.
Qed.

Lemma startAutoMix_enter_backend
  (cur next : Track) (pos : R) (c : Completion Enter) (w w' : World) :
  startAutoMix_enter cur next pos w = (c, w') ->
  match c with
  | Normal (Done true) => armed_block w w'
  | _ => backend_untouched w w'
  end.
Proof.
  intros Hrun.
  destruct (startAutoMix_enter_cases cur next pos c w w' Hrun)
    as [(_ & -> & Hq)
       | [(_ & _ & -> & ->)
         | [(_ & a & b & _ & _ & _ & -> & _ & _ & _ & _ & Hn & Hc & _)
           | (_ & a & b & c0 & _ & _ & _ & Hs & ->)]]].
  - destruct Hq as (_ & _ & _ & _ & Hn & Hc & _); split; assumption.
  - apply backend_untouched_from_armed; split; reflexivity.
  - split; assumption.
  - pose proof (startAutoMix_schedule_backend _ _ _ _ _ _ _ _ _ Hs) as H.
    destruct c0 as [[|] | e];
      [apply armed_block_from_armed | apply backend_untouched_from_armed
      | apply backend_untouched_from_armed]; exact H.
Qed.

Lemma startAutoMix_resume_backend
  (f : Frame) (settled : Completion AudioBuffer) (c : Completion bool)
  (w w' : World) :
  startAutoMix_resume f settled w = (c, w') ->
  match c with
  | Normal true => armed_block w w'
  | _ => backend_untouched w w'
  end.
Proof.
  unfold startAutoMix_resume, bind, liftC.
  destruct settled as [bufferB | e].
  - apply startAutoMix_schedule_backend.
  - intros [= <- <-]; split; reflexivity.
Qed.

(** Only a task of [startAutoMix] that returns [true] reaches the
    backend, and it records the calls of one armed session. *)
Lemma step_backend (p q : Page) (o : Outcome) :
  step p o q ->
  match o with
  | Returned true => armed_block (world p) (world q)
  | _ => backend_untouched (world p) (world q)
  end.
Proof.
  intros Hstep.
  destruct Hstep as
    [ p cur next pos result w' Hrun
    | p cur next pos f w' Hrun
    | p cur next pos e w' Hrun
    | p before f after settled result w' Hsusp Hrun
    | p before f after settled e w' Hsusp Hrun
    | p before delay after Htimers
    | p enabled w' Hrun
    | p cur next c w' Hrun
    | p crossfade now Hclock ]; cbn [world].
  - exact (startAutoMix_enter_backend _ _ _ _ _ _ Hrun).
  - exact (startAutoMix_enter_backend _ _ _ _ _ _ Hrun).
  - exact (startAutoMix_enter_backend _ _ _ _ _ _ Hrun).
  - exact (startAutoMix_resume_backend _ _ _ _ _ Hrun).
  - exact (startAutoMix_resume_backend _ _ _ _ _ Hrun).
  - split; reflexivity.
  - unfold setDebugMode, bind, updEngine, consoleLog in Hrun.
    injection Hrun as <-; split; reflexivity.
  - pose proof (simulateMixSession_quiet cur next (world p)) as Hq.
    rewrite Hrun in Hq; cbn [snd] in Hq.
    destruct Hq as (_ & _ & _ & _ & Hn & Hc & _); split; assumption.
  - split; reflexivity.
Qed.

Lemma startedSources_app (l1 l2 : list Call) :
  startedSources (l1 ++ l2) = startedSources l1 ++ startedSources l2.
Proof.
  induction l1 as [| c l1 IH]; [reflexivity |].
  destruct c; cbn [app startedSources]; rewrite IH; reflexivity.
Qed.

Lemma stoppedSources_app (l1 l2 : list Call) :
  stoppedSources (l1 ++ l2) = stoppedSources l1 ++ stoppedSources l2.
Proof.
  induction l1 as [| c l1 IH]; [reflexivity |].
  destruct c; cbn [app stoppedSources]; rewrite IH; reflexivity.
Qed.

Lemma anime_tail_sources (tail : list Call) :
  (forall c, In c tail -> exists delay dur, c = Anime delay dur) ->
  startedSources tail = [] /\ stoppedSources tail = [].
Proof.
  induction tail as [| c tail IH]; [split; reflexivity |].
  intros H; destruct (H c (or_introl eq_refl)) as (delay & dur & ->).
  cbn [startedSources stoppedSources]; apply IH.
  intros c Hc; apply H; now right.
Qed.

(** An armed session starts its incoming source, and only that one,
    and stops its outgoing source, and only that one. *)
Lemma armedCalls_sources (n : NodeId) (bufferA bufferB : AudioBuffer)
  (mixStartTime crossfade offset : R) :
  startedSources (armedCalls n bufferA bufferB mixStartTime crossfade offset)
  = [S n]
  /\ stoppedSources (armedCalls n bufferA bufferB mixStartTime crossfade offset)
     = [n]
  /\ In (CreateBufferSource (S n))
       (armedCalls n bufferA bufferB mixStartTime crossfade offset).
Proof.
  unfold armedCalls; cbn [startedSources stoppedSources In].
  repeat split; right; left; reflexivity.
Qed.

Lemma armed_block_sources (w w' : World) :
  armed_block w w' -> sources_used_once w -> sources_used_once w'.
Proof.
  intros (bufferA & bufferB & t & cf & offset & tail & Hc & Htail & Hn)
         (Hnodup & Hstarted & Hstopped & Hdisjoint).
  destruct (anime_tail_sources tail Htail) as [Hts Htp].
  destruct (armedCalls_sources (nextNode w) bufferA bufferB t cf offset)
    as (Has & Hap & Hcreated).
  unfold sources_used_once.
  rewrite Hc, Hn, !startedSources_app, !stoppedSources_app,
    Has, Hap, Hts, Htp, !app_nil_r.
  split; [| split; [| split]].
  - apply NoDup_app; [exact Hnodup | repeat constructor; intros [] |].
    intros s Hs [<- | []]; destruct (Hstarted _ Hs) as [Hlt _]; lia.
  - intros s Hs; apply in_app_or in Hs as [Hs | [<- | []]].
    + destruct (Hstarted s Hs) as [Hlt Hin]; split; [lia |].
      apply in_or_app; now left.
    + split; [lia |].
      apply in_or_app; right; apply in_or_app; left; exact Hcreated.
  - intros s Hs; apply in_app_or in Hs as [Hs | [<- | []]];
      [specialize (Hstopped s Hs) |]; lia.
  - intros s Hs Hp.
    apply in_app_or in Hs as [Hs | [<- | []]];
      apply in_app_or in Hp as [Hp | [Heq | []]].
    + exact (Hdisjoint s Hs Hp).
    + destruct (Hstarted s Hs) as [Hlt _]; lia.
    + specialize (Hstopped _ Hp); lia.
    + lia.
Qed.

Lemma backend_untouched_sources (w w' : World) :
  backend_untouched w w' -> sources_used_once w -> sources_used_once w'.
Proof.
  intros [Hc Hn]; unfold sources_used_once; rewrite Hc, Hn; trivial.
Qed.

(** On every page reached from a new engine, no source node has been
    started twice, every started source was created by an earlier
    [createBufferSource] of the engine, and the sources that were
    started and those that were scheduled to stop are disjoint: a
    session starts the incoming source it has just created and stops
    the outgoing source it has just created, which it never starts. *)
Theorem sources_never_restarted :
  forall (crossfade now : R) (anime : bool) (p : Page),
    reaches (newPage crossfade now anime) p ->
    sources_used_once (world p).
Proof.
  intros crossfade now anime p Hreach.
  induction Hreach as [| q o r _ IH Hstep].
  - unfold sources_used_once; cbn [world newPage newWorld calls nextNode
                                      startedSources stoppedSources].
    split; [constructor | split; [intros s [] | split; intros s []]].
  - pose proof (step_backend q r o Hstep) as H.
    destruct o as [[|] | e | |];
      first [ exact (armed_block_sources _ _ H IH)
            | exact (backend_untouched_sources _ _ H IH) ].
Qed.


(** *** The life of a session *)

(** A call on a new engine that arms a session: tempi 120 and 123.5
    (no resampling), mix point at 192 s, position 180 s. *)
Lemma example_session_step :
  step (newPage 8 0 false) (Returned true)
    {| world :=
         snd (startAutoMix_enter (exampleTrack 120 (Some [10; 10.5; 11]))
                (exampleTrack 123.5 (Some [0.05; 0.6; 1.2])) 180
                (newWorld 8 0 false));
       suspended := [] |}.
Proof.
  set (cur := exampleTrack 120 (Some [10; 10.5; 11])).
  set (next := exampleTrack 123.5 (Some [0.05; 0.6; 1.2])).
  assert (Htest : tempoTest {| bpm := 120; beats := Some [10; 10.5; 11] |}
                    {| bpm := 123.5; beats := Some [0.05; 0.6; 1.2] |} = false).
  { destruct (tempoTest _ _) eqn:H; [| reflexivity].
    apply tempoTest_spec in H; destruct (proj1 tempo_window_examples H). }
  pose proof (startAutoMix_enter_direct cur next 180 _ _ (newWorld 8 0 false)
                eq_refl eq_refl eq_refl Htest) as Hrun.
  cbv zeta in Hrun.
  destruct (offset_returns {| bpm := 120; beats := Some [10; 10.5; 11] |}
              {| bpm := 123.5; beats := Some [0.05; 0.6; 1.2] |}
              (200 - 8) (armed (newWorld 8 0 false)))
    as (offset & Hoff); [discriminate |].
  match type of Hrun with
  | context [startAutoMix_schedule ?c ?n ?p ?d ?m ?bf ?w0] =>
      destruct (startAutoMix_schedule_ahead c n p d m offset bf w0)
        as (w' & Hs & _);
        [ exact Hoff
        | cbn [pm_crossfadeDuration newWorld buffer duration cur exampleTrack
               exampleBuffer]; lra
        | ]
  end.
  rewrite Hs in Hrun; cbn [fst snd] in Hrun.
  rewrite Hrun; cbn [snd].
  exact (step_call_done (newPage 8 0 false) cur next 180 true w' Hrun).
Qed.

(** A task of [startAutoMix] that returns [true], on a page reached
    from a new engine, leaves the flag set, no call parked and exactly
    one timer pending; until that timer fires every call is turned
    away, and when it fires the engine is idle again with no session in
    flight, its node fields and the recorded backend calls untouched. *)
Theorem session_ends_when_timer_fires :
  forall (crossfade now : R) (anime : bool) (p q : Page),
    reaches (newPage crossfade now anime) p ->
    step p (Returned true) q ->
    isMixing (engine (world q)) = true
    /\ suspended q = []
    /\ (forall cur next pos,
          fst (startAutoMix_enter cur next pos (world q)) = Normal (Done false))
    /\ exists delay,
         timers (world q) = [delay]
         /\ let r := {| world := fireTimer [] (world q); suspended := [] |} in
            step q Quiet r
            /\ isMixing (engine (world r)) = false
            /\ sessions r = 0%nat
            /\ calls (world r) = calls (world q)
            /\ sourceNodeA (engine (world r)) = sourceNodeA (engine (world q))
            /\ sourceNodeB (engine (world r)) = sourceNodeB (engine (world q))
            /\ gainNodeA (engine (world r)) = gainNodeA (engine (world q))
            /\ gainNodeB (engine (world r)) = gainNodeB (engine (world q)).
Proof.
  intros crossfade now anime p q Hreach Hstep.
  pose proof (reaches_consistent _ _ (newPage_consistent crossfade now anime)
                Hreach) as [Hidle Hone].
  unfold sessions in Hidle, Hone.
  assert (Hq : isMixing (engine (world q)) = true
               /\ suspended q = []
               /\ exists delay, timers (world q) = [delay]).
  { remember (Returned true) as o eqn:Ho.
    destruct Hstep as
      [ p cur next pos result w' Hrun
      | p cur next pos f w' Hrun
      | p cur next pos e w' Hrun
      | p before f after settled result w' Hsusp Hrun
      | p before f after settled e w' Hsusp Hrun
      | p before delay after Htimers
      | p enabled w' Hrun
      | p cur next c w' Hrun
      | p crossfade' now' Hclock ]; try discriminate;
      injection Ho as ->; cbn [world suspended].
    - pose proof (startAutoMix_enter_summary cur next pos (world p)) as S.
      cbv zeta in S; rewrite Hrun in S; cbn [fst snd] in S.
      destruct (isMixing (engine (world p))).
      + destruct S as (S & _); discriminate.
      + specialize (Hidle eq_refl).
        destruct S as (Hflag & delay & Ht).
        destruct (suspended p); [| cbn [List.length] in Hidle; lia].
        destruct (timers (world p)); [| cbn [List.length] in Hidle; lia].
        split; [exact Hflag | split; [reflexivity | exists delay; exact Ht]].
    - rewrite Hsusp, length_app in Hidle, Hone; cbn [List.length] in Hidle, Hone.
      assert (Hbusy : isMixing (engine (world p)) = true).
      { destruct (isMixing (engine (world p))); [reflexivity |].
        specialize (Hidle eq_refl); lia. }
      pose proof (startAutoMix_resume_summary f settled (world p)) as S.
      cbv zeta in S; rewrite Hrun in S; cbn [fst snd] in S.
      destruct S as (Hflag & delay & Ht).
      destruct before; [| cbn [List.length] in Hone; lia].
      destruct after; [| cbn [List.length] in Hone; lia].
      destruct (timers (world p)); [| cbn [List.length] in Hone; lia].
      split; [congruence | split; [reflexivity | exists delay; exact Ht]]. }
  destruct Hq as (Hbusy & Hsusp & delay & Ht).
  split; [exact Hbusy | split; [exact Hsusp | split]].
  - intros cur next pos.
    destruct (startAutoMix_enter_busy cur next pos (world q) Hbusy)
      as (w' & -> & _); reflexivity.
  - exists delay; split; [exact Ht |].
    cbv zeta; split.
    + rewrite <- Hsusp.
      exact (step_timer q [] delay [] Ht).
    + unfold sessions, fireTimer; cbn; repeat split.
Qed.

Lemma session_ends_when_timer_fires_witness :
  let q :=
    {| world :=
         snd (startAutoMix_enter (exampleTrack 120 (Some [10; 10.5; 11]))
                (exampleTrack 123.5 (Some [0.05; 0.6; 1.2])) 180
                (newWorld 8 0 false));
       suspended := [] |} in
  isMixing (engine (world q)) = true
  /\ suspended q = []
  /\ exists delay, timers (world q) = [delay].
Proof.
  intros q.
  destruct (session_ends_when_timer_fires 8 0 false (newPage 8 0 false) q
              (reaches_refl _) example_session_step)
    as (Hbusy & Hsusp & _ & delay & Ht & _).
  split; [exact Hbusy | split; [exact Hsusp | exists delay; exact Ht]].
Defined.

Lemma sources_never_restarted_witness :
  sources_used_once
    (snd (startAutoMix_enter (exampleTrack 120 (Some [10; 10.5; 11]))
            (exampleTrack 123.5 (Some [0.05; 0.6; 1.2])) 180
            (newWorld 8 0 false))).
Proof.
  exact (sources_never_restarted 8 0 false _
           (reaches_step _ _ _ _ (reaches_refl _) example_session_step)).
Defined.

(** *** A call that returned [true], read back *)

Lemma offset_value_total (a b : Analysis) (mixPoint : R) (w : World) :
  beats a <> Some [] ->
  fst (calculateBeatAlignedStartOffset (Some a) (Some b) mixPoint w)
  = Normal match beats a, beats b with
           | Some _, Some incoming => firstIncoming incoming
           | _, _ => 0
           end.
Proof.
  intros Hne.
  destruct (beats a) as [outgoing |] eqn:Ha.
  - rewrite (offset_value a b outgoing mixPoint w Ha) by congruence.
    reflexivity.
  - apply offset_without_beat_data.
    right; right; left; exists a; now split.
Qed.

Lemma startAutoMix_true_inv
  (render : OfflineRequest -> Completion AudioBuffer)
  (cur next : Track) (pos : R) (w w' : World) :
  startAutoMix render cur next pos w = (Normal true, w') ->
  let crossfade := pm_crossfadeDuration w in
  let mixPoint := duration (buffer cur) - crossfade in
  let now := ctx_currentTime w in
  let mixStartTime := now + (mixPoint - pos) in
  isMixing (engine w) = false
  /\ 0 < mixPoint - pos
  /\ exists a b offset bufferB,
       analysis cur = Some a /\ analysis next = Some b
       /\ (if tempoTest a b
           then render (requestFor (buffer next) a b) = Normal bufferB
                /\ renders w' = renders w ++ [requestFor (buffer next) a b]
           else bufferB = buffer next /\ renders w' = renders w)
       /\ fst (calculateBeatAlignedStartOffset (Some a) (Some b) mixPoint w)
          = Normal offset
       /\ timers w' = timers w ++ [(mixStartTime - now + crossfade) * 1000]
       /\ calls w'
          = calls w
            ++ armedCalls (nextNode w) (buffer cur) bufferB
                 mixStartTime crossfade offset
            ++ (if animeDefined w
                then [Anime (if Rltb 0 ((mixStartTime - now) * 1000)
                             then (mixStartTime - now) * 1000 else 0)
                            (crossfade * 1000)]
                else []).
Proof.
  intros Hrun crossfade mixPoint now mixStartTime.
  subst crossfade mixPoint now mixStartTime.
  rewrite startAutoMix_unfold in Hrun.
  destruct (startAutoMix_enter cur next pos w) as [c w1] eqn:Henter.
  destruct (startAutoMix_enter_cases cur next pos c w w1 Henter)
    as [(_ & -> & _)
       | [(_ & _ & -> & _)
         | [(Hidle & a & b & Ha & Hb & Htest & -> & He1 & _ & Hnow1 & Han1
             & Hn1 & Hc1 & Hr1 & Ht1)
           | (Hidle & a & b & c0 & Ha & Hb & Htest & Hs & ->)]]];
    try discriminate.
  - cbn [fr_request] in Hrun.
    unfold startAutoMix_resume, bind, liftC in Hrun;
      cbn [fr_currentTrack fr_nextTrack fr_currentPosition
           fr_crossfadeDuration fr_mixPoint] in Hrun.
    destruct (render (requestFor (buffer next) a b)) as [bufferB | e] eqn:Hrender;
      [| discriminate].
    pose proof (startAutoMix_schedule_inv _ _ _ _ _ _ _ _ _ Hrun) as H.
    cbv zeta in H.
    destruct H as (Hahead & offset & Hoff & _ & _ & Ht & Hr & Hc).
    rewrite Ha, Hb, (offset_value_independent _ _ _ w1 w) in Hoff.
    rewrite Hnow1 in *; rewrite Hn1, Hc1, Han1 in Hc; rewrite Ht1 in Ht.
    split; [exact Hidle | split; [lra |]].
    exists a, b, offset, bufferB; rewrite Htest.
    repeat split; try assumption; congruence.
  - destruct c0 as [[|] | e]; try discriminate.
    injection Hrun as <-.
    pose proof (armed_fields w) as (_ & _ & Hnow1 & Han1 & Hn1 & Hc1 & Hr1 & Ht1).
    pose proof (startAutoMix_schedule_inv _ _ _ _ _ _ _ _ _ Hs) as H.
    cbv zeta in H.
    destruct H as (Hahead & offset & Hoff & _ & _ & Ht & Hr & Hc).
    rewrite Ha, Hb, (offset_value_independent _ _ _ (armed w) w) in Hoff.
    rewrite Hnow1 in *; rewrite Hn1, Hc1, Han1 in Hc; rewrite Ht1 in Ht.
    split; [exact Hidle | split; [lra |]].
    exists a, b, offset, (buffer next); rewrite Htest.
    repeat split; try assumption; congruence.
Qed.

(** When [simulateMixSession] returns a report and [startAutoMix], on
    the same page and tracks, returns [true], the report told what the
    call did: the session was armed at the reported mix point and with
    the reported crossfade duration, the incoming source was started at
    the reported final offset, and an offline render was asked for
    exactly when the report says resampling is needed, at the ratio of
    the two reported tempi. *)
Theorem simulation_predicts_mix :
  forall (render : OfflineRequest -> Completion AudioBuffer)
         (w w' : World) (cur next : Track) (pos : R) (r : Report),
    fst (simulateMixSession (Some cur) (Some next) w) = Normal (SimReport r) ->
    startAutoMix render cur next pos w = (Normal true, w') ->
    let mixStartTime := ctx_currentTime w + (rep_mixPoint r - pos) in
    exists offset bufferB,
      finalOffset r = Some offset
      /\ calls w'
         = calls w
           ++ armedCalls (nextNode w) (buffer cur) bufferB mixStartTime
                (rep_crossfadeDuration r) offset
           ++ (if animeDefined w
               then [Anime (if Rltb 0 ((mixStartTime - ctx_currentTime w) * 1000)
                            then (mixStartTime - ctx_currentTime w) * 1000
                            else 0)
                           (rep_crossfadeDuration r * 1000)]
               else [])
      /\ (if resamplingNeeded r
          then exists req,
                 renders w' = renders w ++ [req]
                 /\ req_playbackRate req = trackA_BPM r / trackB_BPM r
                 /\ render req = Normal bufferB
          else renders w' = renders w /\ bufferB = buffer next).
Proof.
  intros render w w' cur next pos r Hsim Hmix mixStartTime; subst mixStartTime.
  pose proof (startAutoMix_true_inv render cur next pos w w' Hmix) as H.
  cbv zeta in H.
  destruct H as (_ & _ & a & b & offset & bufferB & Ha & Hb & Hbuf & Hoff
                 & _ & Hc).
  assert (Hne : beats a <> Some []).
  { intros Hempty.
    rewrite (simulateMixSession_empty_outgoing cur next a b w Ha Hb Hempty)
      in Hsim; discriminate. }
  pose proof (simulateMixSession_run cur next a b w Ha Hb Hne) as Hrun.
  cbv zeta in Hrun; rewrite Hrun in Hsim; injection Hsim as <-.
  cbn [rep_mixPoint rep_crossfadeDuration finalOffset resamplingNeeded
       trackA_BPM trackB_BPM].
  rewrite (offset_value_total a b _ w Hne) in Hoff; injection Hoff as Hoff.
  exists offset, bufferB; split; [now rewrite Hoff | split; [exact Hc |]].
  destruct (tempoTest a b).
  - destruct Hbuf as [Hrender Hr].
    exists (requestFor (buffer next) a b); repeat split; assumption.
  - destruct Hbuf as [-> Hr]; split; [exact Hr | reflexivity].
Qed.

Lemma simulation_predicts_mix_witness :
  exists r w',
    fst (simulateMixSession
           (Some (exampleTrack 120 (Some [10; 10.5; 11])))
           (Some (exampleTrack 123.5 (Some [0.05; 0.6; 1.2])))
           (newWorld 8 0 false))
    = Normal (SimReport r)
    /\ startAutoMix workingRender
         (exampleTrack 120 (Some [10; 10.5; 11]))
         (exampleTrack 123.5 (Some [0.05; 0.6; 1.2])) 180 (newWorld 8 0 false)
       = (Normal true, w')
    /\ exists offset,
         finalOffset r = Some offset
         /\ In (Start 1%nat (0 + (rep_mixPoint r - 180)) offset) (calls w').
Proof.
  set (cur := exampleTrack 120 (Some [10; 10.5; 11])).
  set (next := exampleTrack 123.5 (Some [0.05; 0.6; 1.2])).
  pose proof (simulateMixSession_run cur next
                {| bpm := 120; beats := Some [10; 10.5; 11] |}
                {| bpm := 123.5; beats := Some [0.05; 0.6; 1.2] |}
                (newWorld 8 0 false) eq_refl eq_refl) as Hsim.
  cbv zeta in Hsim; specialize (Hsim ltac:(discriminate)).
  assert (Hmix : exists w',
             startAutoMix workingRender cur next 180 (newWorld 8 0 false)
             = (Normal true, w')).
  { rewrite startAutoMix_unfold.
    destruct (startAutoMix_enter cur next 180 (newWorld 8 0 false))
      as [c w1] eqn:Henter.
    destruct (startAutoMix_enter_cases cur next 180 c _ w1 Henter)
      as [(Hbusy & _) | [(_ & [Hn | Hn] & _)
         | [(_ & a & b & [= <-] & [= <-] & Htest & _)
           | (_ & a & b & c0 & [= <-] & [= <-] & _ & Hs & ->)]]];
      try discriminate.
    - exfalso.
      apply tempoTest_spec in Htest.
      exact (proj1 tempo_window_examples Htest).
    - destruct (offset_returns {| bpm := 120; beats := Some [10; 10.5; 11] |}
                  {| bpm := 123.5; beats := Some [0.05; 0.6; 1.2] |}
                  (200 - 8) (armed (newWorld 8 0 false)))
        as (offset & Hoff); [discriminate |].
      match type of Hs with
      | startAutoMix_schedule ?c ?n ?p ?d ?m ?bf ?w0 = _ =>
          destruct (startAutoMix_schedule_ahead c n p d m offset bf w0)
            as (w2 & Hs2 & _);
            [ exact Hoff
            | cbn [pm_crossfadeDuration newWorld buffer duration cur
                   exampleTrack exampleBuffer]; lra
            | ]
      end.
      rewrite Hs2 in Hs; injection Hs as <- <-.
      exists w2; reflexivity. }
  destruct Hmix as (w' & Hmix).
  destruct (simulation_predicts_mix workingRender (newWorld 8 0 false) w'
              cur next 180 _ Hsim Hmix)
    as (offset & bufferB & Hoff & Hc & _).
  eexists; exists w'; split; [exact Hsim | split; [exact Hmix |]].
  exists offset; split; [exact Hoff |].
  cbv zeta in Hc; rewrite Hc.
  apply in_or_app; right; apply in_or_app; left.
  unfold armedCalls; cbn [In nextNode newWorld ctx_currentTime].
  do 14 right; left; reflexivity.
Defined.

(** On an idle engine, a track without analysis makes [startAutoMix]
    throw a [TypeError] at line 58, after the flag was set: the flag
    stays set and nothing else happens.  ([simulateMixSession] returns
    an error value on the same input.) *)
Theorem startAutoMix_missing_analysis :
  forall (render : OfflineRequest -> Completion AudioBuffer)
         (w : World) (cur next : Track) (pos : R),
    isMixing (engine w) = false ->
    analysis cur = None \/ analysis next = None ->
    let r := startAutoMix render cur next pos w in
    fst r = Throw (TypeError "Cannot read properties of undefined")
    /\ engine (snd r) = set_isMixing true (engine w)
    /\ calls (snd r) = calls w
    /\ renders (snd r) = renders w
    /\ timers (snd r) = timers w
    /\ nextNode (snd r) = nextNode w.
Proof.
  intros render w cur next pos Hidle Hnone r; subst r.
  rewrite startAutoMix_unfold.
  destruct (startAutoMix_enter cur next pos w) as [c w1] eqn:Henter.
  destruct (startAutoMix_enter_cases cur next pos c w w1 Henter)
    as [(Hbusy & _)
       | [(_ & _ & -> & ->)
         | [(_ & a & b & Ha & Hb & _)
           | (_ & a & b & c0 & Ha & Hb & _)]]];
    try congruence; try (destruct Hnone; congruence).
  pose proof (armed_fields w) as (He & _ & _ & _ & Hn & Hc & Hr & Ht).
  cbn [fst snd]; repeat split; assumption.
Qed.

Lemma startAutoMix_missing_analysis_witness :
  let r :=
    startAutoMix workingRender
      {| buffer := exampleBuffer; analysis := None; fileName := "a.mp3" |}
      (exampleTrack 128 None) 0 (newWorld 8 0 false) in
  fst r = Throw (TypeError "Cannot read properties of undefined")
  /\ isMixing (engine (snd r)) = true.
Proof.
  intros r.
  destruct (startAutoMix_missing_analysis workingRender (newWorld 8 0 false)
              {| buffer := exampleBuffer; analysis := None;
                 fileName := "a.mp3" |}
              (exampleTrack 128 None) 0 eq_refl (or_introl eq_refl))
    as (Hr & He & _).
  split; [exact Hr | subst r; rewrite He; reflexivity].
Defined.

(** *** Debug mode *)

Lemma same_but_debug_refl (w : World) : same_but_debug w w.
Proof. repeat split. Qed.

Lemma same_but_debug_sym (w1 w2 : World) :
  same_but_debug w1 w2 -> same_but_debug w2 w1.
Proof. unfold same_but_debug; intros H; decompose [and] H; repeat split; congruence. Qed.

Lemma same_but_debug_trans (w1 w2 w3 : World) :
  same_but_debug w1 w2 -> same_but_debug w2 w3 -> same_but_debug w1 w3.
Proof.
  unfold same_but_debug; intros H12 H23.
  decompose [and] H12; decompose [and] H23; repeat split; congruence.
Qed.

Lemma quiet_same_but_debug (w w' : World) : quiet w w' -> same_but_debug w w'.
Proof.
  intros (He & Hcf & Hnow & Han & Hn & Hc & Hr & Ht).
  unfold same_but_debug; rewrite He; repeat split; congruence.
Qed.

Lemma armed_same_but_debug (w1 w2 : World) :
  same_but_debug w1 w2 -> same_but_debug (armed w1) (armed w2).
Proof.
  intros H.
  pose proof (armed_fields w1) as (He1 & Hcf1 & Hnow1 & Han1 & Hn1 & Hc1 & Hr1 & Ht1).
  pose proof (armed_fields w2) as (He2 & Hcf2 & Hnow2 & Han2 & Hn2 & Hc2 & Hr2 & Ht2).
  unfold same_but_debug in *.
  rewrite He1, He2, Hcf1, Hcf2, Hnow1, Hnow2, Han1, Han2, Hn1, Hn2,
    Hc1, Hc2, Hr1, Hr2, Ht1, Ht2.
  cbn [set_isMixing isMixing sourceNodeA sourceNodeB gainNodeA gainNodeB].
  decompose [and] H; repeat split; assumption.
Qed.

(** Lines 64-122 on two pages that differ in the debug flag and the
    console end alike, on two pages that differ as much. *)
Lemma startAutoMix_schedule_same_but_debug
  (cur next : Track) (pos crossfade mixPoint : R) (bufferB : AudioBuffer)
  (w1 w2 : World) :
  same_but_debug w1 w2 ->
  fst (startAutoMix_schedule cur next pos crossfade mixPoint bufferB w1)
  = fst (startAutoMix_schedule cur next pos crossfade mixPoint bufferB w2)
  /\ same_but_debug
       (snd (startAutoMix_schedule cur next pos crossfade mixPoint bufferB w1))
       (snd (startAutoMix_schedule cur next pos crossfade mixPoint bufferB w2)).
Proof.
  intros Hsame.
  pose proof (startAutoMix_schedule_run cur next pos crossfade mixPoint bufferB w1)
    as H1.
  pose proof (startAutoMix_schedule_run cur next pos crossfade mixPoint bufferB w2)
    as H2.
  pose proof (startAutoMix_schedule_environment cur next pos crossfade mixPoint
                bufferB w1) as (Hcf1 & Hnow1 & Han1).
  pose proof (startAutoMix_schedule_environment cur next pos crossfade mixPoint
                bufferB w2) as (Hcf2 & Hnow2 & Han2).
  cbv zeta in *.
  rewrite (offset_value_independent _ _ _ w2 w1) in H2.
  destruct Hsame as (Hm & HsA & HsB & HgA & HgB & Hcf & Hnow & Han & Hn & Hc
                     & Hr & Ht).
  rewrite <- Hnow, <- Han, <- Hn, <- Hc, <- Hr, <- Ht in H2.
  set (r1 := startAutoMix_schedule cur next pos crossfade mixPoint bufferB w1) in *.
  set (r2 := startAutoMix_schedule cur next pos crossfade mixPoint bufferB w2) in *.
  unfold same_but_debug.
  rewrite Hcf1, Hcf2, Hnow1, Hnow2, Han1, Han2.
  destruct (fst (calculateBeatAlignedStartOffset
                   (analysis cur) (analysis next) mixPoint w1)) as [offset | e].
  - destruct (Rleb _ _).
    + destruct H1 as (-> & He1 & Hc1 & Ht1 & Hr1 & Hn1).
      destruct H2 as (-> & He2 & Hc2 & Ht2 & Hr2 & Hn2).
      rewrite He1, He2, Hc1, Hc2, Ht1, Ht2, Hr1, Hr2, Hn1, Hn2.
      cbn [set_isMixing isMixing sourceNodeA sourceNodeB gainNodeA gainNodeB].
      repeat split; assumption.
    + destruct H1 as (-> & He1 & Hn1 & Ht1 & Hr1 & Hc1).
      destruct H2 as (-> & He2 & Hn2 & Ht2 & Hr2 & Hc2).
      rewrite He1, He2, Hc1, Hc2, Ht1, Ht2, Hr1, Hr2, Hn1, Hn2.
      cbn [set_gainNodeB set_gainNodeA set_sourceNodeB set_sourceNodeA
           isMixing sourceNodeA sourceNodeB gainNodeA gainNodeB].
      rewrite Hn; repeat split; assumption.
  - destruct H1 as (-> & Hq1); destruct H2 as (-> & Hq2).
    destruct Hq1 as (He1 & _ & _ & _ & Hn1 & Hc1 & Hr1 & Ht1).
    destruct Hq2 as (He2 & _ & _ & _ & Hn2 & Hc2 & Hr2 & Ht2).
    rewrite He1, He2, Hc1, Hc2, Ht1, Ht2, Hr1, Hr2, Hn1, Hn2.
    repeat split; assumption.
Qed.

Lemma startAutoMix_resume_same_but_debug
  (f : Frame) (settled : Completion AudioBuffer) (w1 w2 : World) :
  same_but_debug w1 w2 ->
  fst (startAutoMix_resume f settled w1) = fst (startAutoMix_resume f settled w2)
  /\ same_but_debug (snd (startAutoMix_resume f settled w1))
       (snd (startAutoMix_resume f settled w2)).
Proof.
  intros Hsame; unfold startAutoMix_resume, bind, liftC.
  destruct settled as [bufferB | e]; [| split; [reflexivity | exact Hsame]].
  now apply startAutoMix_schedule_same_but_debug.
Qed.

Lemma startAutoMix_enter_same_but_debug
  (cur next : Track) (pos : R) (w1 w2 : World) :
  same_but_debug w1 w2 ->
  fst (startAutoMix_enter cur next pos w1) = fst (startAutoMix_enter cur next pos w2)
  /\ same_but_debug (snd (startAutoMix_enter cur next pos w1))
       (snd (startAutoMix_enter cur next pos w2)).
Proof.
  intros Hsame.
  assert (Hflag : isMixing (engine w1) = isMixing (engine w2)) by apply Hsame.
  assert (Hcf : pm_crossfadeDuration w1 = pm_crossfadeDuration w2) by apply Hsame.
  destruct (isMixing (engine w1)) eqn:H1; symmetry in Hflag.
  { destruct (startAutoMix_enter_busy cur next pos w1 H1) as (w1' & -> & Hq1 & _).
    destruct (startAutoMix_enter_busy cur next pos w2 Hflag) as (w2' & -> & Hq2 & _).
    split; [reflexivity |]; cbn [snd].
    eapply same_but_debug_trans;
      [apply same_but_debug_sym, quiet_same_but_debug; exact Hq1 |].
    eapply same_but_debug_trans; [exact Hsame |].
    apply quiet_same_but_debug; exact Hq2. }
  destruct (startAutoMix_enter cur next pos w1) as [c1 w1'] eqn:Hrun1.
  destruct (startAutoMix_enter_cases cur next pos c1 w1 w1' Hrun1)
    as [(Hbusy & _)
       | [(_ & Hnone & -> & ->)
         | [(_ & a & b & Ha & Hb & Htest & -> & He1 & Hcf1 & Hnow1 & Han1
             & Hn1 & Hc1 & Hr1 & Ht1)
           | (_ & a & b & c0 & Ha & Hb & Htest & Hs & ->)]]];
    [congruence | | |].
  - destruct (startAutoMix_enter cur next pos w2) as [c2 w2'] eqn:Hrun2.
    destruct (startAutoMix_enter_cases cur next pos c2 w2 w2' Hrun2)
      as [(Hbusy & _)
         | [(_ & _ & -> & ->)
           | [(_ & a & b & Ha & Hb & _)
             | (_ & a & b & c0 & Ha & Hb & _)]]];
      try congruence; try (destruct Hnone; congruence).
    split; [reflexivity | now apply armed_same_but_debug].
  - destruct (startAutoMix_enter_await cur next pos a b w2 Hflag Ha Hb Htest)
      as (w2' & -> & He2 & Hcf2 & Hnow2 & Han2 & Hn2 & Hc2 & Hr2 & Ht2).
    cbn [fst snd]; rewrite Hcf; split; [reflexivity |].
    unfold same_but_debug in *.
    rewrite He1, He2, Hcf1, Hcf2, Hnow1, Hnow2, Han1, Han2, Hn1, Hn2,
      Hc1, Hc2, Hr1, Hr2, Ht1, Ht2.
    cbn [set_isMixing isMixing sourceNodeA sourceNodeB gainNodeA gainNodeB].
    decompose [and] Hsame; repeat split; congruence.
  - rewrite (startAutoMix_enter_direct cur next pos a b w2 Hflag Ha Hb Htest).
    cbv zeta; cbn [fst snd]; rewrite <- Hcf.
    destruct (startAutoMix_schedule_same_but_debug cur next pos
                (pm_crossfadeDuration w1)
                (duration (buffer cur) - pm_crossfadeDuration w1)
                (buffer next) (armed w1) (armed w2)
                (armed_same_but_debug _ _ Hsame)) as [Hfst Hsnd].
    rewrite Hs in Hfst, Hsnd; cbn [fst snd] in Hfst, Hsnd.
    rewrite <- Hfst; split; [reflexivity | exact Hsnd].
Qed.

(** Debug mode only logs: [setDebugMode] changes nothing but the flag
    and the console, and on two pages that differ at most in the debug
    flag and the console, [startAutoMix] gives the same result and
    leaves two pages that differ at most in the debug flag and the
    console; so does each of its two halves around the [await]. *)
Theorem debug_mode_only_logs :
  (forall (enabled : bool) (w : World),
      same_but_debug w (snd (setDebugMode enabled w)))
  /\ (forall (render : OfflineRequest -> Completion AudioBuffer)
             (cur next : Track) (pos : R) (w1 w2 : World),
         same_but_debug w1 w2 ->
         fst (startAutoMix render cur next pos w1)
         = fst (startAutoMix render cur next pos w2)
         /\ same_but_debug (snd (startAutoMix render cur next pos w1))
              (snd (startAutoMix render cur next pos w2)))
  /\ (forall (f : Frame) (settled : Completion AudioBuffer) (w1 w2 : World),
         same_but_debug w1 w2 ->
         fst (startAutoMix_resume f settled w1)
         = fst (startAutoMix_resume f settled w2)
         /\ same_but_debug (snd (startAutoMix_resume f settled w1))
              (snd (startAutoMix_resume f settled w2))).
Proof.
  split; [| split; [| exact startAutoMix_resume_same_but_debug]].
  - intros enabled w.
    destruct w as [[mixing dbg sA sB gA gB] cf t anime n cs rs con ts].
    unfold setDebugMode; run_page; repeat split.
  - intros render cur next pos w1 w2 Hsame.
    rewrite !startAutoMix_unfold.
    destruct (startAutoMix_enter_same_but_debug cur next pos w1 w2 Hsame)
      as [Hfst Hsnd].
    destruct (startAutoMix_enter cur next pos w1) as [c1 w1'].
    destruct (startAutoMix_enter cur next pos w2) as [c2 w2'].
    cbn [fst snd] in Hfst, Hsnd; subst c2.
    destruct c1 as [[result | f] | e]; cbn [fst snd].
    + split; [reflexivity | exact Hsnd].
    + now apply startAutoMix_resume_same_but_debug.
    + split; [reflexivity | exact Hsnd].
Qed.

Lemma debug_mode_only_logs_witness :
  fst (startAutoMix workingRender
         (exampleTrack 120 (Some [10; 10.5; 11]))
         (exampleTrack 128 (Some [0.05; 0.6; 1.2])) 180 (newWorld 8 0 true))
  = fst (startAutoMix workingRender
           (exampleTrack 120 (Some [10; 10.5; 11]))
           (exampleTrack 128 (Some [0.05; 0.6; 1.2])) 180 debugWorld).
Proof.
  apply (proj1 (proj2 debug_mode_only_logs)).
  exact (proj1 debug_mode_only_logs true (newWorld 8 0 true)).
Defined.

(** *** The console *)

Lemma debugLog_silent (msg : LogMsg) (w : World) :
  debugMode (engine w) = false -> debugLog msg w = (Normal tt, w).
Proof.
  intros Hoff; unfold debugLog, bind, getEngine; rewrite Hoff; reflexivity.
Qed.

Lemma calculateBeatAlignedStartOffset_silent
  (analysisA analysisB : option Analysis) (mixPoint : R) (w : World) :
  debugMode (engine w) = false ->
  snd (calculateBeatAlignedStartOffset analysisA analysisB mixPoint w) = w.
Proof.
  intros Hoff; unfold calculateBeatAlignedStartOffset.
  destruct analysisA as [a |], analysisB as [b |];
    try (unfold bind; rewrite debugLog_silent by exact Hoff; reflexivity).
  destruct (beats a) as [outgoing |], (beats b) as [incoming |];
    try (unfold bind; rewrite debugLog_silent by exact Hoff; reflexivity).
  unfold bind, liftC.
  destruct (closestBeat outgoing mixPoint) as [anchor | e]; [| reflexivity].
  rewrite debugLog_silent by exact Hoff; reflexivity.
Qed.

Lemma startAutoMix_schedule_silent
  (cur next : Track) (pos crossfade mixPoint : R) (bufferB : AudioBuffer)
  (w : World) :
  debugMode (engine w) = false ->
  let w' := snd (startAutoMix_schedule cur next pos crossfade mixPoint
                   bufferB w) in
  console w' = console w /\ debugMode (engine w') = false.
Proof.
  intros Hoff w'; unfold startAutoMix_schedule, bind in w'; subst w'.
  pose proof (calculateBeatAlignedStartOffset_silent
                (analysis cur) (analysis next) mixPoint w Hoff) as Hsame.
  destruct (calculateBeatAlignedStartOffset
              (analysis cur) (analysis next) mixPoint w)
    as [[startTimeB | e] w1]; cbn [fst snd] in *; subst w1.
  2: { split; [reflexivity | exact Hoff]. }
  destruct w as [[mixing dbg sA sB gA gB] cf t anime n cs rs con ts].
  cbn [debugMode engine] in Hoff; subst dbg.
  run_page.
  destruct (Rleb (t + (mixPoint - pos)) t).
  - run_page; split; reflexivity.
  - destruct anime; run_page; split; reflexivity.
Qed.

Lemma armed_silent (w : World) :
  debugMode (engine w) = false ->
  console (armed w) = console w /\ debugMode (engine (armed w)) = false.
Proof.
  intros Hoff; unfold armed.
  destruct w as [[mixing dbg sA sB gA gB] cf t anime n cs rs con ts].
  cbn [debugMode engine] in Hoff; subst dbg.
  run_page; split; reflexivity.
Qed.

Lemma startAutoMix_enter_silent (cur next : Track) (pos : R) (w : World) :
  debugMode (engine w) = false ->
  let w' := snd (startAutoMix_enter cur next pos w) in
  console w' = console w /\ debugMode (engine w') = false.
Proof.
  intros Hoff w'; subst w'.
  destruct (startAutoMix_enter cur next pos w) as [c w1] eqn:Hrun; cbn [snd].
  pose proof (armed_silent w Hoff) as [Hac Had].
  destruct (startAutoMix_enter_cases cur next pos c w w1 Hrun)
    as [(Hbusy & _ & Hq)
       | [(_ & _ & _ & ->)
         | [(Hidle & a & b & Ha & Hb & Htest & _ & He1 & _)
           | (_ & a & b & c0 & _ & _ & _ & Hs & _)]]].
  - destruct (startAutoMix_enter_busy cur next pos w Hbusy)
      as (w0 & H0 & (He & _) & Hcon).
    rewrite H0 in Hrun; injection Hrun as _ <-.
    rewrite Hcon, He, Hoff, app_nil_r; split; reflexivity.
  - split; assumption.
  - pose proof (startAutoMix_enter_await_console cur next pos a b w
                  Hidle Ha Hb Htest) as Hcon.
    rewrite Hrun in Hcon; cbn [snd] in Hcon.
    rewrite Hcon, He1, Hoff, app_nil_r; split; [reflexivity | exact Hoff].
  - pose proof (startAutoMix_schedule_silent cur next pos
                  (pm_crossfadeDuration w)
                  (duration (buffer cur) - pm_crossfadeDuration w)
                  (buffer next) (armed w) Had) as H.
    cbv zeta in H; rewrite Hs in H; cbn [snd] in H.
    destruct H as [Hc Hd]; split; congruence.
Qed.

Lemma simulateMixSession_silent (cur next : option Track) (w : World) :
  debugMode (engine w) = false -> snd (simulateMixSession cur next w) = w.
Proof.
  intros Hoff; unfold simulateMixSession.
  destruct cur as [cur |], next as [next |]; try reflexivity.
  destruct (analysis cur) as [a |], (analysis next) as [b0 |]; try reflexivity.
  unfold bind at 1, getCrossfadeDuration; cbv zeta.
  change (Rltb (bpm a * 0.03) (Rabs (bpm a - bpm b0))
          && Rltb (Rabs (bpm a - bpm b0)) (bpm a * 0.25)) with (tempoTest a b0).
  set (mixPoint := duration (buffer cur) - pm_crossfadeDuration w).
  set (b := if tempoTest a b0
            then {| bpm := bpm a; beats := beats b0 |} else b0).
  unfold bind at 1.
  pose proof (calculateBeatAlignedStartOffset_silent (Some a) (Some b) mixPoint
                w Hoff) as Hsame.
  destruct (calculateBeatAlignedStartOffset (Some a) (Some b) mixPoint w)
    as [[offset | e] w1]; cbn [snd] in Hsame; subst w1; [| reflexivity].
  destruct (beats a) as [bs |].
  - unfold bind, liftC, ret.
    destruct (reduce (closer mixPoint) bs) as [c | e]; [| reflexivity].
    rewrite debugLog_silent by exact Hoff; reflexivity.
  - unfold bind, ret.
    rewrite debugLog_silent by exact Hoff; reflexivity.
Qed.

(** With debug mode off the engine is silent: [startAutoMix],
    [simulateMixSession], [calculateBeatAlignedStartOffset],
    [resampleBufferForTempo] and [syncCrossfadeAnimation] write nothing
    to the console and leave debug mode off, however they end; only
    [setDebugMode] writes, one line per call. *)
Theorem silent_without_debug_mode :
  (forall (render : OfflineRequest -> Completion AudioBuffer)
          (cur next : Track) (pos : R) (w : World),
      debugMode (engine w) = false ->
      console (snd (startAutoMix render cur next pos w)) = console w
      /\ debugMode (engine (snd (startAutoMix render cur next pos w))) = false)
  /\ (forall (cur next : option Track) (w : World),
         debugMode (engine w) = false ->
         snd (simulateMixSession cur next w) = w)
  /\ (forall (analysisA analysisB : option Analysis) (mixPoint : R) (w : World),
         debugMode (engine w) = false ->
         snd (calculateBeatAlignedStartOffset analysisA analysisB mixPoint w)
         = w)
  /\ (forall (sourceBuffer : AudioBuffer) (a b : Analysis) (w : World),
         debugMode (engine w) = false ->
         console (snd (resampleBufferForTempo sourceBuffer a b w)) = console w)
  /\ (forall (startTime dur : R) (w : World),
         debugMode (engine w) = false ->
         console (snd (syncCrossfadeAnimation startTime dur w)) = console w)
  /\ (forall (enabled : bool) (w : World),
         console (snd (setDebugMode enabled w))
         = console w ++ [LogDebugMode enabled]).
Proof.
  split; [| split; [exact simulateMixSession_silent
                   | split; [exact calculateBeatAlignedStartOffset_silent |]]].
  - intros render cur next pos w Hoff.
    rewrite startAutoMix_unfold.
    pose proof (startAutoMix_enter_silent cur next pos w Hoff) as H.
    cbv zeta in H.
    destruct (startAutoMix_enter cur next pos w) as [[[result | f] | e] w1];
      cbn [snd] in *; try exact H.
    destruct H as [Hc Hd].
    unfold startAutoMix_resume, bind, liftC.
    destruct (render (fr_request f)) as [bufferB | e]; cbn [snd];
      [| split; assumption].
    pose proof (startAutoMix_schedule_silent (fr_currentTrack f)
                  (fr_nextTrack f) (fr_currentPosition f)
                  (fr_crossfadeDuration f) (fr_mixPoint f) bufferB w1 Hd) as H.
    cbv zeta in H; destruct H as [Hc' Hd']; split; congruence.
  - split; [| split].
    + intros sourceBuffer a b w Hoff.
      destruct w as [[mixing dbg sA sB gA gB] cf t anime n cs rs con ts].
      cbn [debugMode engine] in Hoff; subst dbg.
      unfold resampleBufferForTempo; run_page; reflexivity.
    + intros startTime dur w Hoff.
      destruct w as [[mixing dbg sA sB gA gB] cf t anime n cs rs con ts].
      cbn [debugMode engine] in Hoff; subst dbg.
      unfold syncCrossfadeAnimation; destruct anime; run_page; reflexivity.
    + intros enabled w.
      destruct w as [[mixing dbg sA sB gA gB] cf t anime n cs rs con ts].
      unfold setDebugMode; run_page; reflexivity.
Qed.

Lemma silent_without_debug_mode_witness :
  console (snd (startAutoMix workingRender
                  (exampleTrack 120 (Some [10; 10.5; 11]))
                  (exampleTrack 128 (Some [0.05; 0.6; 1.2])) 180
                  (newWorld 8 0 true)))
  = [].
Proof.
  apply (proj1 silent_without_debug_mode workingRender
           (exampleTrack 120 (Some [10; 10.5; 11]))
           (exampleTrack 128 (Some [0.05; 0.6; 1.2])) 180 (newWorld 8 0 true)).
  reflexivity.
Defined.

(** *** The result of a call *)

(** The result of [startAutoMix] on an idle engine with both analyses:
    the outcome of step 2, then of the beat alignment, then the test of
    line 71. *)
Lemma startAutoMix_result
  (render : OfflineRequest -> Completion AudioBuffer)
  (cur next : Track) (pos : R) (a b : Analysis) (w : World) :
  isMixing (engine w) = false ->
  analysis cur = Some a -> analysis next = Some b ->
  let mixPoint := duration (buffer cur) - pm_crossfadeDuration w in
  fst (startAutoMix render cur next pos w)
  = match (if tempoTest a b
           then render (requestFor (buffer next) a b)
           else Normal (buffer next)) with
    | Throw e => Throw e
    | Normal _ =>
        match fst (calculateBeatAlignedStartOffset (Some a) (Some b)
                     mixPoint w) with
        | Throw e => Throw e
        | Normal _ =>
            Normal (negb (Rleb (ctx_currentTime w + (mixPoint - pos))
                            (ctx_currentTime w)))
        end
    end.
Proof.
  intros Hidle Ha Hb mixPoint; subst mixPoint.
  rewrite startAutoMix_unfold.
  assert (Hsched : forall bufferB w1,
             ctx_currentTime w1 = ctx_currentTime w ->
             fst (startAutoMix_schedule cur next pos (pm_crossfadeDuration w)
                    (duration (buffer cur) - pm_crossfadeDuration w) bufferB w1)
             = match fst (calculateBeatAlignedStartOffset (Some a) (Some b)
                            (duration (buffer cur) - pm_crossfadeDuration w) w)
               with
               | Throw e => Throw e
               | Normal _ =>
                   Normal (negb (Rleb (ctx_currentTime w
                                       + (duration (buffer cur)
                                          - pm_crossfadeDuration w - pos))
                                   (ctx_currentTime w)))
               end).
  { intros bufferB w1 Hnow.
    pose proof (startAutoMix_schedule_run cur next pos (pm_crossfadeDuration w)
                  (duration (buffer cur) - pm_crossfadeDuration w) bufferB w1)
      as H; cbv zeta in H.
    rewrite Ha, Hb, (offset_value_independent _ _ _ w1 w), Hnow in H.
    destruct (fst (calculateBeatAlignedStartOffset (Some a) (Some b) _ w));
      [| exact (proj1 H)].
    destruct (Rleb _ _); exact (proj1 H). }
  destruct (tempoTest a b) eqn:Htest.
  - destruct (startAutoMix_enter_await cur next pos a b w Hidle Ha Hb Htest)
      as (w1 & -> & _ & _ & Hnow1 & _).
    cbn [fr_request].
    unfold startAutoMix_resume, bind, liftC;
      cbn [fr_currentTrack fr_nextTrack fr_currentPosition
           fr_crossfadeDuration fr_mixPoint].
    destruct (render (requestFor (buffer next) a b)) as [bufferB | e];
      [| reflexivity].
    apply Hsched; exact Hnow1.
  - rewrite (startAutoMix_enter_direct cur next pos a b w Hidle Ha Hb Htest).
    cbv zeta.
    pose proof (armed_fields w) as (_ & _ & Hnow1 & _).
    pose proof (Hsched (buffer next) (armed w) Hnow1) as H.
    destruct (startAutoMix_schedule cur next pos (pm_crossfadeDuration w)
                (duration (buffer cur) - pm_crossfadeDuration w)
                (buffer next) (armed w)) as [[result | e] w'];
      cbn [fst snd] in *; rewrite <- H; reflexivity.
Qed.






(** *** More on the curve *)





(** *** A parked call *)

(** A call parked at the [await] has read the crossfade duration and
    computed the mix point already: when it is resumed it uses those,
    and the clock of the moment, whatever the crossfade duration
    configured by then.  Resumed on two pages that differ only in the
    configured crossfade duration, it gives the same result, the same
    engine fields, the same backend calls and the same timers. *)
Theorem parked_call_keeps_its_crossfade :
  forall (f : Frame) (settled : Completion AudioBuffer) (w : World)
         (crossfade' : R),
    let w2 := setEnvironment crossfade' (ctx_currentTime w) w in
    let r1 := startAutoMix_resume f settled w in
    let r2 := startAutoMix_resume f settled w2 in
    fst r1 = fst r2
    /\ engine (snd r1) = engine (snd r2)
    /\ calls (snd r1) = calls (snd r2)
    /\ timers (snd r1) = timers (snd r2)
    /\ renders (snd r1) = renders (snd r2)
    /\ nextNode (snd r1) = nextNode (snd r2)
    /\ (forall w', r1 = (Normal true, w') ->
          exists bufferB offset,
            settled = Normal bufferB
            /\ In (SetBuffer (S (nextNode w)) bufferB) (calls w')
            /\ In (Start (S (nextNode w))
                     (ctx_currentTime w
                      + (fr_mixPoint f - fr_currentPosition f)) offset)
                 (calls w')
            /\ In (Stop (nextNode w)
                     (ctx_currentTime w
                      + (fr_mixPoint f - fr_currentPosition f)
                      + fr_crossfadeDuration f))
                 (calls w')).
Proof.
  intros f settled w crossfade' w2 r1 r2; subst r1 r2.
  unfold startAutoMix_resume, bind, liftC.
  destruct settled as [bufferB | e].
  2: { subst w2; cbn; repeat split; intros w' H; discriminate H. }
  set (cur := fr_currentTrack f); set (next := fr_nextTrack f).
  set (pos := fr_currentPosition f); set (cf := fr_crossfadeDuration f).
  set (mixPoint := fr_mixPoint f).
  pose proof (startAutoMix_schedule_run cur next pos cf mixPoint bufferB w) as H1.
  pose proof (startAutoMix_schedule_run cur next pos cf mixPoint bufferB w2) as H2.
  cbv zeta in H1, H2.
  rewrite (offset_value_independent _ _ _ w2 w) in H2.
  subst w2;
    cbn [setEnvironment ctx_currentTime engine calls timers renders nextNode
         animeDefined] in H2.
  set (w2 := setEnvironment crossfade' (ctx_currentTime w) w) in *.
  set (r1 := startAutoMix_schedule cur next pos cf mixPoint bufferB w) in *.
  set (r2 := startAutoMix_schedule cur next pos cf mixPoint bufferB w2) in *.
  destruct (fst (calculateBeatAlignedStartOffset
                   (analysis cur) (analysis next) mixPoint w)) as [offset | e].
  - destruct (Rleb _ _).
    + destruct H1 as (Hr1 & He1 & Hc1 & Ht1 & Hre1 & Hn1).
      destruct H2 as (Hr2 & He2 & Hc2 & Ht2 & Hre2 & Hn2).
      repeat split; try congruence.
      intros w' Hw'; rewrite Hw' in Hr1; discriminate Hr1.
    + destruct H1 as (Hr1 & He1 & Hn1 & Ht1 & Hre1 & Hc1).
      destruct H2 as (Hr2 & He2 & Hn2 & Ht2 & Hre2 & Hc2).
      repeat split; try congruence.
      intros w' Hw'; rewrite Hw' in Hc1; cbn [snd] in Hc1.
      exists bufferB, offset; split; [reflexivity |].
      rewrite Hc1; unfold armedCalls.
      repeat split; apply in_or_app; right; apply in_or_app; left; cbn [In].
      * do 5 right; left; reflexivity.
      * do 14 right; left; reflexivity.
      * do 17 right; left; reflexivity.
  - destruct H1 as (Hr1 & Hq1); destruct H2 as (Hr2 & Hq2).
    destruct Hq1 as (He1 & _ & _ & _ & Hn1 & Hc1 & Hre1 & Ht1).
    destruct Hq2 as (He2 & _ & _ & _ & Hn2 & Hc2 & Hre2 & Ht2).
    subst w2; cbn [setEnvironment engine calls timers renders nextNode] in *.
    repeat split; try congruence.
    intros w' Hw'; rewrite Hw' in Hr1; discriminate Hr1.
Qed.

(** *** The end of a session *)

(** When [startAutoMix] returns [true], the timer that clears the flag
    is set to the time the outgoing track has left, [duration -
    currentPosition] seconds, which is more than the crossfade
    duration; the outgoing source is scheduled to stop at that same
    distance from now, and the incoming source to start one crossfade
    duration earlier. *)
Theorem session_lasts_until_track_end :
  forall (render : OfflineRequest -> Completion AudioBuffer)
         (cur next : Track) (pos : R) (w w' : World),
    startAutoMix render cur next pos w = (Normal true, w') ->
    let remaining := duration (buffer cur) - pos in
    let crossfade := pm_crossfadeDuration w in
    let now := ctx_currentTime w in
    crossfade < remaining
    /\ (exists delay,
          timers w' = timers w ++ [delay] /\ delay = remaining * 1000)
    /\ (exists when,
          In (Stop (nextNode w) when) (calls w') /\ when = now + remaining)
    /\ (exists when offset,
          In (Start (S (nextNode w)) when offset) (calls w')
          /\ when = now + remaining - crossfade).
Proof.
  intros render cur next pos w w' Hrun remaining crossfade now.
  subst remaining crossfade now.
  pose proof (startAutoMix_true_inv render cur next pos w w' Hrun) as H.
  cbv zeta in H.
  destruct H as (_ & Hahead & a & b & offset & bufferB & _ & _ & _ & _ & Ht & Hc).
  split; [lra | split; [| split]].
  - eexists; split; [exact Ht | lra].
  - eexists; split.
    + rewrite Hc; apply in_or_app; right; apply in_or_app; left.
      unfold armedCalls; cbn [In]; do 17 right; left; reflexivity.
    + lra.
  - eexists; exists offset; split.
    + rewrite Hc; apply in_or_app; right; apply in_or_app; left.
      unfold armedCalls; cbn [In]; do 14 right; left; reflexivity.
    + lra.
Qed.

(** A call on a new engine that resamples and arms a session: tempi
    120 and 128, mix point at 192 s, position 180 s. *)
Lemma example_resampled_mix :
  exists w',
    startAutoMix workingRender
      (exampleTrack 120 (Some [10; 10.5; 11]))
      (exampleTrack 128 (Some [0.05; 0.6; 1.2])) 180 (newWorld 8 0 false)
    = (Normal true, w').
Proof.
  assert (Htest : tempoTest {| bpm := 120; beats := Some [10; 10.5; 11] |}
                    {| bpm := 128; beats := Some [0.05; 0.6; 1.2] |} = true)
    by (apply tempoTest_spec; exact (proj1 (proj2 tempo_window_examples))).
  pose proof (startAutoMix_result workingRender
                (exampleTrack 120 (Some [10; 10.5; 11]))
                (exampleTrack 128 (Some [0.05; 0.6; 1.2])) 180 _ _
                (newWorld 8 0 false) eq_refl eq_refl eq_refl) as H.
  cbv zeta in H; rewrite Htest in H.
  cbn [workingRender] in H.
  destruct (offset_returns {| bpm := 120; beats := Some [10; 10.5; 11] |}
              {| bpm := 128; beats := Some [0.05; 0.6; 1.2] |}
              (duration (buffer (exampleTrack 120 (Some [10; 10.5; 11])))
               - pm_crossfadeDuration (newWorld 8 0 false))
              (newWorld 8 0 false)) as (offset & Hoff); [discriminate |].
  rewrite Hoff, Rleb_false in H
    by (cbn [duration buffer exampleTrack exampleBuffer pm_crossfadeDuration
             ctx_currentTime newWorld]; lra).
  cbn [negb] in H.
  destruct (startAutoMix workingRender _ _ 180 (newWorld 8 0 false)) as [c w'].
  cbn [fst] in H; subst c; exists w'; reflexivity.
Qed.

Lemma session_lasts_until_track_end_witness :
  exists w' delay,
    startAutoMix workingRender
      (exampleTrack 120 (Some [10; 10.5; 11]))
      (exampleTrack 128 (Some [0.05; 0.6; 1.2])) 180 (newWorld 8 0 false)
    = (Normal true, w')
    /\ timers w' = [] ++ [delay]
    /\ delay = (200 - 180) * 1000.
Proof.
  destruct example_resampled_mix as (w' & Hrun).
  destruct (session_lasts_until_track_end workingRender _ _ 180 _ w' Hrun)
    as (_ & (delay & Ht & Hd) & _).
  exists w', delay; split; [exact Hrun | split; [exact Ht | exact Hd]].
Defined.
